(** * nemo-screenshot: a shallow embedding of [src/index.js]

    JavaScript strings are modelled as lists of UTF-16 code units ([jstr]);
    string literals of the source are written [js "..."]. *)

From Stdlib Require Import String Ascii.
From stdpp Require Import base gmap list.

Open Scope Z_scope.

(* --------------------------------------------------------------------- *)
(** ** JavaScript values *)

Abbreviation jstr := (list Z) (only parsing).

Definition js (s : string) : jstr :=
  map (fun a => Z.of_nat (nat_of_ascii a)) (list_ascii_of_string s).

Definition jstr_eqb (a b : jstr) : bool := bool_decide (a = b).

(** Error objects as the driver, the file system and the test framework
    hand them around: [name], [message], [stack] and the marker property
    [_nemoScreenshotHandled] set by the exception hook. [estack = None]
    is an undefined [stack] property. *)
Record errobj := mkErr {
  ename : jstr;
  emessage : jstr;
  estack : option jstr;
  handled : bool
}.

Inductive jsval :=
| JUndefined
| JNull
| JBool (b : bool)
| JNum (n : Z)
| JStr (s : jstr)
| JObj (o : errobj).

Definition truthy (v : jsval) : bool :=
  match v with
  | JUndefined | JNull => false
  | JBool b => b
  | JNum n => negb (n =? 0)
  | JStr s => negb (jstr_eqb s [])
  | JObj _ => true
  end.

(** [String(x)] of an optional string: [undefined] prints as "undefined". *)
Definition opt_to_jstr (s : option jstr) : jstr :=
  match s with Some x => x | None => js "undefined" end.

(** [Error.prototype.toString]. *)
Definition err_toString (e : errobj) : jstr :=
  if jstr_eqb (emessage e) [] then ename e
  else if jstr_eqb (ename e) [] then emessage e
  else ename e ++ js ": " ++ emessage e.

(* --------------------------------------------------------------------- *)
(** ** [titleSlug] (lines 37-43) *)

Module Slug.

(** Code units removed by [String.prototype.trim]: WhiteSpace and
    LineTerminator of ECMA-262. *)
Definition is_js_space (c : Z) : bool :=
  (c =? 9) || (c =? 10) || (c =? 11) || (c =? 12) || (c =? 13) ||
  (c =? 32) || (c =? 160) || (c =? 5760) ||
  ((8192 <=? c) && (c <=? 8202)) ||
  (c =? 8232) || (c =? 8233) || (c =? 8239) || (c =? 8287) ||
  (c =? 12288) || (c =? 65279).

Fixpoint drop_space (s : jstr) : jstr :=
  match s with
  | [] => []
  | c :: r => if is_js_space c then drop_space r else s
  end.

Definition trim (s : jstr) : jstr := rev (drop_space (rev (drop_space s))).

(** [\w] without the [u] flag: [A-Za-z0-9_], one code unit at a time. *)
Definition is_word (c : Z) : bool :=
  ((48 <=? c) && (c <=? 57)) || ((65 <=? c) && (c <=? 90)) ||
  ((97 <=? c) && (c <=? 122)) || (c =? 95).

(** [.replace(/\W/g, '_')] *)
Definition replace_nonword (s : jstr) : jstr :=
  map (fun c => if is_word c then c else 95) s.

(** [.substring(0, n)] *)
Definition substring0 (s : jstr) (n : nat) : jstr := firstn n s.

Definition titleSlug (title : jstr) : jstr :=
  if negb (truthy (JStr title)) then []
  else substring0 (replace_nonword (trim title)) 251.

End Slug.

(* --------------------------------------------------------------------- *)
(** ** [formatJenkinsImageUrls] (lines 66-99) *)

Module Jenkins.

(** The four environment variables read from [process.env]. *)
Record proc_env := mkProcEnv {
  JENKINS_URL : option jstr;
  BUILD_URL : option jstr;
  JOB_NAME : option jstr;
  WORKSPACE : option jstr
}.

Definition env_truthy (v : option jstr) : bool :=
  match v with Some s => truthy (JStr s) | None => false end.

(** [{ imageUrl: ..., archivedImageUrl: ... }], [None] for [undefined]. *)
Record image_urls := mkUrls {
  imageUrl : option jstr;
  archivedImageUrl : option jstr
}.

(** [str.substr(k)] with [k >= 0]. *)
Definition substr_from (s : jstr) (k : nat) : jstr := drop k s.

(** The function returns its result and the lines it writes to
    [console.log]. *)
Definition formatJenkinsImageUrls (pe : proc_env) (screenShotPath imageName : jstr)
    : option image_urls * list jstr :=
  match WORKSPACE pe with
  | Some workspace =>
      if negb (truthy (JStr workspace)) then
        (None, [js "nemo-screenshot was unable to format Jenkins image URLs: " ++
                js "WORKSPACE env variable is not defined"])
      else
        let relImagePath := substr_from screenShotPath (length workspace) in
        let '(imageUrl0, logs) :=
          if env_truthy (JOB_NAME pe) then
            (Some (opt_to_jstr (JENKINS_URL pe) ++ js "job/" ++
                   opt_to_jstr (JOB_NAME pe) ++ js "/ws" ++ relImagePath ++
                   js "/" ++ imageName), [])
          else
            (None, [js "nemo-screenshot was unable to format Jenkins workspace image URL: " ++
                    js "JOB_NAME env variable is not defined"]) in
        let archived0 :=
          if env_truthy (BUILD_URL pe) then
            Some (opt_to_jstr (BUILD_URL pe) ++ js "artifact" ++ relImagePath ++
                  js "/" ++ imageName)
          else None in
        if env_truthy imageUrl0 || env_truthy archived0 then
          (Some (mkUrls imageUrl0 archived0), logs)
        else (None, logs)
  | None =>
      (None, [js "nemo-screenshot was unable to format Jenkins image URLs: " ++
              js "WORKSPACE env variable is not defined"])
  end.

End Jenkins.


(* --------------------------------------------------------------------- *)
(** ** Node's [path] module (posix), as used by [snap] and [source] *)

Module Path.

Definition is_slash (c : Z) : bool := c =? 47.

Fixpoint drop_while (f : Z -> bool) (s : jstr) : jstr :=
  match s with
  | [] => []
  | c :: r => if f c then drop_while f r else s
  end.

(** [s.split('/')] *)
Fixpoint split_slash (s : jstr) : list jstr :=
  match s with
  | [] => [[]]
  | c :: r =>
      let parts := split_slash r in
      if is_slash c then [] :: parts
      else match parts with
           | p :: ps => (c :: p) :: ps
           | [] => [[c]]
           end
  end.

(** [normalizeString(path, allowAboveRoot)] on the list of segments;
    [acc] is the reversed list of segments kept so far. *)
Fixpoint norm_go (allowAboveRoot : bool) (acc : list jstr) (l : list jstr) : list jstr :=
  match l with
  | [] => rev acc
  | s :: r =>
      if jstr_eqb s [] || jstr_eqb s (js ".") then norm_go allowAboveRoot acc r
      else if jstr_eqb s (js "..") then
        match acc with
        | t :: acc' =>
            if allowAboveRoot && jstr_eqb t (js "..")
            then norm_go allowAboveRoot (s :: acc) r
            else norm_go allowAboveRoot acc' r
        | [] =>
            if allowAboveRoot then norm_go allowAboveRoot [s] r
            else norm_go allowAboveRoot [] r
        end
      else norm_go allowAboveRoot (s :: acc) r
  end.

Fixpoint join_sep (l : list jstr) : jstr :=
  match l with
  | [] => []
  | [s] => s
  | s :: r => s ++ [47] ++ join_sep r
  end.

Definition normalizeString (p : jstr) (allowAboveRoot : bool) : jstr :=
  join_sep (norm_go allowAboveRoot [] (split_slash p)).

Definition is_absolute (p : jstr) : bool :=
  match p with c :: _ => is_slash c | [] => false end.

Definition ends_with_slash (p : jstr) : bool :=
  match last p with Some c => is_slash c | None => false end.

(** [path.normalize] *)
Definition normalize (p : jstr) : jstr :=
  if jstr_eqb p [] then js "." else
  let abs := is_absolute p in
  let trailing := ends_with_slash p in
  let q := normalizeString p (negb abs) in
  if jstr_eqb q [] then
    (if abs then js "/" else if trailing then js "./" else js ".")
  else
    let q' := if trailing then q ++ js "/" else q in
    if abs then js "/" ++ q' else q'.

(** [path.resolve(p)] with the working directory [cwd]. *)
Definition resolve (cwd p : jstr) : jstr :=
  let '(resolvedPath, resolvedAbsolute) :=
    if jstr_eqb p [] then (cwd ++ js "/", is_absolute cwd)
    else if is_absolute p then (p ++ js "/", true)
    else (cwd ++ js "/" ++ p ++ js "/", is_absolute cwd) in
  let q := normalizeString resolvedPath (negb resolvedAbsolute) in
  if resolvedAbsolute then js "/" ++ q
  else if jstr_eqb q [] then js "." else q.

(** [path.join(a, b)] *)
Definition join (a b : jstr) : jstr :=
  let joined :=
    if jstr_eqb a [] then b else if jstr_eqb b [] then a else a ++ js "/" ++ b in
  if jstr_eqb joined [] then js "." else normalize joined.

(** [path.dirname(p)] *)
Definition dirname (p : jstr) : jstr :=
  match p with
  | [] => js "."
  | c0 :: rest =>
      let hasRoot := is_slash c0 in
      let r := rev rest in
      let r1 := drop_while is_slash r in
      let r2 := drop_while (fun c => negb (is_slash c)) r1 in
      match r2 with
      | [] => if hasRoot then js "/" else js "."
      | _ =>
          let end_ := length r2 in
          if hasRoot && (end_ =? 1)%nat then js "//" else firstn end_ p
      end
  end.

(** The segments of an absolute path, the key under which the file
    system finds it. *)
Definition segments (p : jstr) : list jstr := norm_go false [] (split_slash p).

End Path.

Example path_checks :
  Path.resolve (js "/home/u") (js "report") = js "/home/u/report" /\
  Path.resolve (js "/home/u") (js "/w/report/") = js "/w/report" /\
  Path.join (js "/w/report") (js "a/b.png") = js "/w/report/a/b.png" /\
  Path.join (js "/d") (js "../x.png") = js "/x.png" /\
  Path.dirname (js "/w/report/a/b.png") = js "/w/report/a" /\
  Path.dirname (js "/x.png") = js "/" /\
  Path.normalize (js "a/../../b/") = js "../b/".
Proof. vm_compute. repeat split. Qed.

(* --------------------------------------------------------------------- *)
(** ** The host: file system, driver and process *)

Module Host.

(** File contents: [fs.writeFile] with [{encoding: 'base64'}] stores the
    decoded bytes of its string, without an encoding the UTF-8 text. *)
Inductive content :=
| Base64Decoded (s : jstr)
| Utf8Text (s : jstr).

(** Files and directories, keyed by the segments of their absolute path. *)
Record fs_state := mkFs {
  files : gmap (list jstr) content;
  dirs : gset (list jstr)
}.

(** What a driver call ([takeScreenshot], [getPageSource],
    [executeScript]) eventually does with its promise. *)
Inductive reply (A : Type) :=
| RDone (a : A)
| RFail (e : errobj)
| RHang.
Arguments RDone {A} a.
Arguments RFail {A} e.
Arguments RHang {A}.

Record env := mkEnv {
  session : jsval;                 (** what [driver.getSession()] returns *)
  screenshot : reply jstr;         (** [driver.takeScreenshot()] *)
  page_source : reply jstr;        (** [driver.getPageSource()] *)
  script_result : reply jstr;      (** [driver.executeScript(script)] *)
  cwd : jstr;                      (** [process.cwd()] *)
  penv : Jenkins.proc_env;         (** [process.env] *)
  mkdir_err : list jstr -> option errobj;  (** I/O faults of [mkdir] *)
  write_err : list jstr -> option errobj   (** I/O faults of [write] *)
}.

(** Observable effects, in the order they happen. *)
Inductive event :=
| EGetSession
| ETakeScreenshot
| EExecuteScript
| EGetPageSource
| EMkdirp (p : jstr)
| EWriteFile (p : jstr)
| ELog (s : jstr)
| EConsoleError (e : errobj)
| EUnhandledRejection (e : errobj).

Definition fs_event (ev : event) : bool :=
  match ev with EMkdirp _ | EWriteFile _ => true | _ => false end.

Definition io_error (code : string) : errobj :=
  mkErr (js "Error") (js code) None false.

Definition key (E : env) (p : jstr) : list jstr :=
  Path.segments (Path.resolve (cwd E) p).

(** The paths [[]], [[a]], [[a;b]], ... up to [k]. *)
Fixpoint prefixes (k : list jstr) : list (list jstr) :=
  match k with
  | [] => [[]]
  | s :: r => [] :: map (cons s) (prefixes r)
  end.

(** [mkdirp.sync(p)]: creates every missing directory on the way to [p].
    A file on a proper ancestor makes its first [mkdir] fail with
    [ENOTDIR]; a file at [p] itself gives [EEXIST] (the [stat] that
    follows finds no directory). An I/O fault of [mkdir] is modelled at
    [p] and surfaces as the thrown error; what the callers observe of a
    throw is only the error, so the directories it may have created
    before are not tracked. *)
Definition mkdirp_sync (E : env) (fs : fs_state) (p : jstr) : errobj + fs_state :=
  let k := key E p in
  let ps := prefixes k in
  if existsb (fun q => bool_decide (is_Some (files fs !! q))) (removelast ps) then
    inl (io_error "ENOTDIR: not a directory")
  else if bool_decide (is_Some (files fs !! k)) then
    inl (io_error "EEXIST: file already exists")
  else match mkdir_err E k with
       | Some e => inl e
       | None => inr (mkFs (files fs) (dirs fs ∪ list_to_set ps))
       end.

(** [fs.writeFile(p, data, ...)] as seen by its callback. *)
Definition write_file (E : env) (fs : fs_state) (p : jstr) (data : content)
    : errobj + fs_state :=
  let k := key E p in
  match write_err E k with
  | Some e => inl e
  | None =>
      if bool_decide (k ∈ dirs fs) then inl (io_error "EISDIR: illegal operation on a directory")
      else if bool_decide (removelast k ∈ dirs fs) then
        inr (mkFs (<[k := data]> (files fs)) (dirs fs))
      else inl (io_error "ENOENT: no such file or directory")
  end.

End Host.

(* --------------------------------------------------------------------- *)
(** ** The capture service [nemo.screenshot] (lines 132-326) *)

Module Capture.
Import Host Jenkins.

(** [imageObj]; the URL fields are [undefined] unless Jenkins URLs were
    formatted. *)
Record image_obj := mkImage {
  imageName : jstr;
  imagePath : jstr;
  o_imageUrl : option jstr;
  o_archivedImageUrl : option jstr
}.

Record source_obj := mkSource {
  sourceName : jstr;
  sourcePath : jstr
}.

(** Values the capture promises are fulfilled with. *)
Inductive capture :=
| CTrue                      (** the no-session sentinel [true] *)
| CImage (o : image_obj)
| CSource (o : source_obj).

(** State of the promise [deferred.promise] once every callback has run. *)
Inductive settled :=
| Pending
| Fulfilled (v : capture)
| Rejected (e : errobj).

Definition nl : jstr := [10].

(** snap (lines 145-190): the settled promise, the effects and the file
    system afterwards. A throw inside the [then] callback (from
    [mkdirp.sync]) rejects the promise returned by [then], which nobody
    handles; [deferred] then stays pending. *)
Definition snap (E : env) (screenShotPath filename : jstr) (fs : fs_state)
    : settled * list event * fs_state :=
  if negb (truthy (session E)) then (Fulfilled CTrue, [EGetSession], fs)
  else
    let ev0 := [EGetSession; ETakeScreenshot] in
    match screenshot E with
    | RHang => (Pending, ev0, fs)
    | RFail err => (Rejected err, ev0, fs)
    | RDone screenImg =>
        let imageName0 := filename ++ js ".png" in
        let imageDir := Path.resolve (cwd E) screenShotPath in
        let imageFullPath := Path.join imageDir imageName0 in
        let dir := Path.dirname imageFullPath in
        match mkdirp_sync E fs dir with
        | inl e => (Pending, ev0 ++ [EMkdirp dir; EUnhandledRejection e], fs)
        | inr fs1 =>
            let '(urls, logs) :=
              if env_truthy (JENKINS_URL (penv E))
              then formatJenkinsImageUrls (penv E) screenShotPath imageName0
              else (None, []) in
            let imageObj :=
              match urls with
              | Some u => mkImage imageName0 imageFullPath (imageUrl u) (archivedImageUrl u)
              | None => mkImage imageName0 imageFullPath None None
              end in
            let ev1 := ev0 ++ [EMkdirp dir] ++ map ELog logs ++ [EWriteFile imageFullPath] in
            match write_file E fs1 imageFullPath (Base64Decoded screenImg) with
            | inl err => (Rejected err, ev1, fs1)
            | inr fs2 => (Fulfilled (CImage imageObj), ev1, fs2)
            end
        end
    end.

(** source (lines 202-311). The [executeScript] continuation runs first
    (its command was queued first); its promise has no rejection
    handler. Its [.txt] write is settled against the file system that
    continuation sees; in Node the write's [open] races the [mkdirp.sync]
    of the [getPageSource] continuation, so the outcome of that write on
    a missing directory is not fixed by the code. *)
Definition source (E : env) (screenShotPath filename : jstr) (fs : fs_state)
    : settled * list event * fs_state :=
  if negb (truthy (session E)) then (Fulfilled CTrue, [EGetSession], fs)
  else
    let ev0 := [EGetSession; EExecuteScript; EGetPageSource] in
    let '(ev1, fs1) :=
      match script_result E with
      | RDone bin_str_invisiNodes =>
          let invisinodeName := filename ++ js ".txt" in
          let folderPath := Path.resolve (cwd E) screenShotPath in
          let filePath := Path.join folderPath invisinodeName in
          match write_file E fs filePath (Utf8Text bin_str_invisiNodes) with
          | inl err => ([EWriteFile filePath; EConsoleError err], fs)
          | inr fs' => ([EWriteFile filePath], fs')
          end
      | RFail e => ([EUnhandledRejection e], fs)
      | RHang => ([], fs)
      end in
    match page_source E with
    | RHang => (Pending, ev0 ++ ev1, fs1)
    | RFail err => (Rejected err, ev0 ++ ev1, fs1)
    | RDone src =>
        let sourceName0 := filename ++ js ".html" in
        let sourceDir := Path.resolve (cwd E) screenShotPath in
        let sourceFullPath := Path.join sourceDir sourceName0 in
        let dir := Path.dirname sourceFullPath in
        match mkdirp_sync E fs1 dir with
        | inl e => (Pending, ev0 ++ ev1 ++ [EMkdirp dir; EUnhandledRejection e], fs1)
        | inr fs2 =>
            let ev2 := ev0 ++ ev1 ++ [EMkdirp dir; EWriteFile sourceFullPath] in
            match write_file E fs2 sourceFullPath (Utf8Text src) with
            | inl err => (Rejected err, ev2, fs2)
            | inr fs3 => (Fulfilled (CSource (mkSource sourceName0 sourceFullPath)), ev2, fs3)
            end
        end
    end.

(** [JSON.stringify] of a string (well-formed, lone surrogates escaped). *)
Definition hex_digit (n : Z) : Z := if n <? 10 then 48 + n else 87 + n.

Definition hex4 (c : Z) : jstr :=
  [hex_digit (Z.shiftr c 12 mod 16); hex_digit (Z.shiftr c 8 mod 16);
   hex_digit (Z.shiftr c 4 mod 16); hex_digit (c mod 16)].

Definition uescape (c : Z) : jstr := [92; 117] ++ hex4 c.

Definition json_unit (c : Z) : jstr :=
  if c =? 34 then [92; 34]
  else if c =? 92 then [92; 92]
  else if c =? 8 then [92; 98]
  else if c =? 9 then [92; 116]
  else if c =? 10 then [92; 110]
  else if c =? 12 then [92; 102]
  else if c =? 13 then [92; 114]
  else if c <? 32 then uescape c
  else [c].

Definition is_high (c : Z) : bool := (55296 <=? c) && (c <=? 56319).
Definition is_low (c : Z) : bool := (56320 <=? c) && (c <=? 57343).

Fixpoint json_units (s : jstr) : jstr :=
  match s with
  | [] => []
  | c :: r =>
      if is_high c then
        match r with
        | d :: r' => if is_low d then c :: d :: json_units r' else uescape c ++ json_units r
        | [] => uescape c
        end
      else if is_low c then uescape c ++ json_units r
      else json_unit c ++ json_units r
  end.

Definition json_quote (s : jstr) : jstr := [34] ++ json_units s ++ [34].

Definition json_field (k : string) (v : jstr) : jstr := json_quote (js k) ++ js ":" ++ json_quote v.

Definition json_opt_field (k : string) (v : option jstr) : jstr :=
  match v with Some x => js "," ++ json_field k x | None => [] end.

(** [JSON.stringify(imageObject)]; [undefined] fields are omitted. *)
Definition json_of_capture (v : capture) : jstr :=
  match v with
  | CTrue => js "true"
  | CImage o =>
      js "{" ++ json_field "imageName" (imageName o) ++ js "," ++
      json_field "imagePath" (imagePath o) ++
      json_opt_field "imageUrl" (o_imageUrl o) ++
      json_opt_field "archivedImageUrl" (o_archivedImageUrl o) ++ js "}"
  | CSource o =>
      js "{" ++ json_field "sourceName" (sourceName o) ++ js "," ++
      json_field "sourcePath" (sourcePath o) ++ js "}"
  end.

Definition type_error_stack : errobj :=
  mkErr (js "TypeError") (js "Cannot create property 'stack' on a primitive value") None false.

(** appendImageUrlToStackTrace (lines 45-64): the error after the update,
    or [inl] of the [TypeError] that strict mode raises when [err] is a
    primitive. *)
Definition appendImageUrlToStackTrace (imageObject : capture) (err : jsval) : errobj + jsval :=
  let '(u, a) :=
    match imageObject with
    | CImage o => (o_imageUrl o, o_archivedImageUrl o)
    | _ => (None, None)
    end in
  let output :=
    if env_truthy u || env_truthy a then
      nl ++
      (if env_truthy u then js "nemo-screenshot (workspace): " ++ opt_to_jstr u ++ nl else []) ++
      (if env_truthy a then js "nemo-screenshot (archived): " ++ opt_to_jstr a ++ nl else [])
    else nl ++ js "nemo-screenshot::" ++ json_of_capture imageObject ++ js "::nemo-screenshot" in
  if truthy err then
    match err with
    | JObj o => inr (JObj (mkErr (ename o) (emessage o) (Some (opt_to_jstr (estack o) ++ output)) (handled o)))
    | _ => inl type_error_stack
    end
  else inr err.

(** done (lines 313-321): the arguments of the calls to the completion
    callback, and the effects. *)
Definition done (E : env) (screenShotPath filename : jstr) (err : jsval) (fs : fs_state)
    : list jsval * list event * fs_state :=
  let '(r, ev, fs1) := snap E screenShotPath filename fs in
  match r with
  | Pending => ([], ev, fs1)
  | Fulfilled imageObject =>
      match appendImageUrlToStackTrace imageObject err with
      | inr err' => ([err'], ev, fs1)
      | inl te => ([], ev ++ [EUnhandledRejection te], fs1)
      end
  | Rejected scerror =>
      ([JObj scerror],
       ev ++ [ELog (js "nemo-screenshot encountered some error." ++ js " " ++ err_toString scerror)],
       fs1)
  end.

End Capture.

(* --------------------------------------------------------------------- *)
(** ** The uncaught-exception hook (lines 342-374)

    [flow.emit] calls the listeners of the event synchronously, in order;
    the hook is one of them, so a re-emission re-enters it. A listener
    call takes a stack frame: [hook n] runs with [n] frames left and
    raises [RangeError] when none is left. The [then]/[catch] chain on
    [driver.getSession()] runs later on a fresh stack: [hook] records it
    as a scheduled task and [run_task] runs it. *)

Module Hook.
Import Host Capture.

Inductive hevent :=
| HEmit                  (** [flow.emit(uncaughtException, exception)] *)
| HMark                  (** [exception._nemoScreenshotHandled = true] *)
| HGetSession            (** [driver.getSession().then(...).catch(...)] *)
| HSource (f : jstr)     (** [nemo.screenshot.source(filename)] *)
| HSnap (f : jstr)       (** [nemo.screenshot.snap(filename)] *)
| HAnnotate              (** [appendImageUrlToStackTrace(imageObject, exception)] *)
| HUnhandledRejection (e : errobj).
    (** a rejection that reaches no handler *)

(** Other listeners either return or throw the exception they get. *)
Inductive listener :=
| LHook
| LOther (rethrows : bool).

Record hout := mkHout {
  hev : list hevent;
  hthrow : option errobj;   (** the exception the call throws, if any *)
  hexn : errobj;            (** the exception object afterwards *)
  htasks : list errobj      (** getSession continuations scheduled *)
}.

Definition hret (e : errobj) : hout := mkHout [] None e [].

Definition hseq (a : hout) (k : errobj -> hout) : hout :=
  match hthrow a with
  | Some _ => a
  | None =>
      let b := k (hexn a) in
      mkHout (hev a ++ hev b) (hthrow b) (hexn b) (htasks a ++ htasks b)
  end.

Definition range_error : errobj :=
  mkErr (js "RangeError") (js "Maximum call stack size exceeded") None false.

Definition mark (e : errobj) : errobj :=
  mkErr (ename e) (emessage e) (estack e) true.

Section Flow.
Variable listeners : list listener.

Fixpoint dispatch (h : errobj -> hout) (ls : list listener) (e : errobj) : hout :=
  match ls with
  | [] => hret e
  | LHook :: r => hseq (h e) (dispatch h r)
  | LOther b :: r =>
      if b then mkHout [] (Some e) e [] else dispatch h r e
  end.

(** [flow.emit(uncaughtException, e)] with [h] as the hook. *)
Definition emit_with (h : errobj -> hout) (e : errobj) : hout :=
  hseq (mkHout [HEmit] None e []) (dispatch h listeners).

Fixpoint hook (n : nat) (exception : errobj) : hout :=
  match n with
  | O => mkHout [] (Some range_error) exception []
  | S m =>
      let r1 :=
        if handled exception then emit_with (hook m) exception else hret exception in
      hseq r1 (fun e1 =>
        mkHout [HMark; HGetSession] None (mark e1) [mark e1])
  end.

(** What the scheduled continuation sees. *)
Record henv := mkHenv {
  get_session : reply jsval;            (** [driver.getSession()] *)
  currentTestTitle : option jstr;       (** [nemo.screenshot._currentTestTitle] *)
  autoCaptureOptions : list jstr;
  default_name : jstr;                  (** ['ScreenShot_onException-' + pid + '-' + time] *)
  snap_result : jstr -> settled         (** how [snap(filename)] settles *)
}.

Definition has_option (H : henv) (o : string) : bool :=
  existsb (jstr_eqb (js o)) (autoCaptureOptions H).

(** The [then]/[catch] callbacks on [driver.getSession()], run on a fresh
    stack of [depth] frames. *)
Definition run_task (depth : nat) (H : henv) (exception : errobj) : hout :=
  let emit := emit_with (hook depth) in
  match get_session H with
  | RHang => hret exception
  | RFail _ => emit exception
  | RDone session =>
      if truthy session then
        let filename :=
          match currentTestTitle H with
          | Some t => if truthy (JStr t) then Slug.titleSlug t else default_name H
          | None => default_name H
          end in
        let caps :=
          (if has_option H "source" then [HSource filename] else []) ++ [HSnap filename] in
        match snap_result H filename with
        | Fulfilled imageObject =>
            let e' :=
              match appendImageUrlToStackTrace imageObject (JObj exception) with
              | inr (JObj o) => o
              | _ => exception
              end in
            hseq (mkHout (caps ++ [HAnnotate]) None e' []) emit
        | Rejected err =>
            (* [snap(filename).then(f)] has no rejection handler *)
            mkHout (caps ++ [HUnhandledRejection err]) None exception []
        | Pending => mkHout caps None exception []
        end
      else
        (* [throw exception], caught by [.catch(function (e) {...})] *)
        hseq (mkHout [HMark] None (mark exception) []) emit
  end.

End Flow.

End Hook.

(* ===================================================================== *)
(** * Properties *)

(* --------------------------------------------------------------------- *)
(** ** Slugging *)

Module SlugFacts.
Import Slug.

Lemma drop_space_split (s : jstr) :
  exists pre, Forall (fun c => is_js_space c = true) pre /\ s = pre ++ drop_space s.
Proof.
  induction s as [|c r IH]; simpl.
  - exists []. auto.
  - destruct (is_js_space c) eqn:Hc.
    + destruct IH as [pre [Hpre Heq]]. exists (c :: pre). split.
      * constructor; auto.
      * simpl. f_equal. exact Heq.
    + exists []. auto.
Qed.

Lemma drop_space_head (s : jstr) (c : Z) :
  hd_error (drop_space s) = Some c -> is_js_space c = false.
Proof.
  induction s as [|d r IH]; simpl; [discriminate|].
  destruct (is_js_space d) eqn:Hd; auto.
  simpl. intros H; injection H as <-. exact Hd.
Qed.

Lemma hd_error_app_l (l r : jstr) (c : Z) :
  hd_error l = Some c -> hd_error (l ++ r) = Some c.
Proof. destruct l; simpl; congruence. Qed.

Lemma last_rev_hd (l : jstr) : last (rev l) = hd_error l.
Proof.
  destruct l as [|c r]; simpl; [reflexivity|].
  rewrite last_snoc. reflexivity.
Qed.

Lemma length_replace_nonword (s : jstr) : length (replace_nonword s) = length s.
Proof. unfold replace_nonword. apply length_map. Qed.

Lemma lookup_replace_nonword (s : jstr) (i : nat) (c : Z) :
  s !! i = Some c -> replace_nonword s !! i = Some (if is_word c then c else 95).
Proof.
  unfold replace_nonword. revert i.
  induction s as [|d r IH]; intros [|i] H; simpl in *; try discriminate.
  - injection H as <-. reflexivity.
  - apply IH. exact H.
Qed.

Lemma titleSlug_nonempty (t : jstr) :
  t <> [] -> titleSlug t = firstn 251 (replace_nonword (trim t)).
Proof.
  intros Ht. unfold titleSlug, truthy, jstr_eqb.
  rewrite bool_decide_false by exact Ht. reflexivity.
Qed.

End SlugFacts.

(** C4: [titleSlug] trims the title (the result [core] is the title with
    its leading and trailing JavaScript white space removed), replaces
    every non-word code unit by an underscore and keeps at most 251 code
    units; ["My Test: Case #1"] becomes ["My_Test__Case__1"]. *)
Theorem titleSlug_trims_replaces_truncates (title : jstr) :
  let core := Slug.trim title in
  (exists pre suf,
      Forall (fun c => Slug.is_js_space c = true) pre /\
      Forall (fun c => Slug.is_js_space c = true) suf /\
      title = pre ++ core ++ suf) /\
  (forall c, hd_error core = Some c -> Slug.is_js_space c = false) /\
  (forall c, last core = Some c -> Slug.is_js_space c = false) /\
  length (Slug.titleSlug title) = Nat.min 251 (length core) /\
  (length (Slug.titleSlug title) <= 251)%nat /\
  (forall (i : nat) (c : Z), core !! i = Some c -> (i < 251)%nat ->
     Slug.titleSlug title !! i = Some (if Slug.is_word c then c else 95)) /\
  Slug.titleSlug (js "My Test: Case #1") = js "My_Test__Case__1".
Proof.
  intros core.
  destruct (SlugFacts.drop_space_split title) as [pre [Hpre Heq1]].
  set (rest := Slug.drop_space title) in *.
  destruct (SlugFacts.drop_space_split (rev rest)) as [pre2 [Hpre2 Heq2]].
  assert (Hrest : rest = core ++ rev pre2).
  { unfold core, Slug.trim. fold rest.
    rewrite <- (rev_involutive rest) at 1. rewrite Heq2 at 1. rewrite rev_app_distr. reflexivity. }
  assert (Hslug : Slug.titleSlug title = firstn 251 (Slug.replace_nonword core)).
  { destruct title as [|c0 t0] eqn:Ht.
    - vm_compute in core. subst core. reflexivity.
    - rewrite SlugFacts.titleSlug_nonempty by discriminate. reflexivity. }
  split; [|split; [|split; [|split; [|split; [|split]]]]].
  - exists pre, (rev pre2). split; [exact Hpre|]. split.
    + apply Forall_rev. exact Hpre2.
    + rewrite Heq1 at 1. rewrite Hrest. reflexivity.
  - intros c Hc. apply (SlugFacts.drop_space_head title).
    fold rest. rewrite Hrest. apply SlugFacts.hd_error_app_l. exact Hc.
  - intros c Hc. apply (SlugFacts.drop_space_head (rev rest)).
    unfold core, Slug.trim in Hc. fold rest in Hc.
    rewrite SlugFacts.last_rev_hd in Hc. exact Hc.
  - rewrite Hslug, length_firstn, SlugFacts.length_replace_nonword. reflexivity.
  - rewrite Hslug, length_firstn. lia.
  - intros i c Hi Hlt. rewrite Hslug, lookup_take_lt by lia.
    apply SlugFacts.lookup_replace_nonword. exact Hi.
  - reflexivity.
Qed.

(* --------------------------------------------------------------------- *)
(** ** Jenkins URLs *)

Definition jenkins_example_env : Jenkins.proc_env :=
  Jenkins.mkProcEnv (Some (js "http://ci/")) None (Some (js "myjob")) (Some (js "/w")).

(** C5: with [WORKSPACE=/w], base path [/w/report], image [x.png],
    [JOB_NAME=myjob], [JENKINS_URL=http://ci/] and no [BUILD_URL], the
    formatter returns [imageUrl = "http://ci/job/myjob/ws/report/x.png"]
    and an undefined [archivedImageUrl]; whenever [WORKSPACE] is unset
    it returns [null], whatever the other inputs. *)
Theorem formatJenkinsImageUrls_example_and_no_workspace :
  fst (Jenkins.formatJenkinsImageUrls jenkins_example_env (js "/w/report") (js "x.png")) =
    Some (Jenkins.mkUrls (Some (js "http://ci/job/myjob/ws/report/x.png")) None) /\
  (forall (pe : Jenkins.proc_env) (screenShotPath imageName : jstr),
     Jenkins.WORKSPACE pe = None ->
     fst (Jenkins.formatJenkinsImageUrls pe screenShotPath imageName) = None).
Proof.
  split.
  - reflexivity.
  - intros pe p n Hw. unfold Jenkins.formatJenkinsImageUrls. rewrite Hw. reflexivity.
Qed.

Lemma formatJenkinsImageUrls_example_and_no_workspace_witness :
  Jenkins.WORKSPACE (Jenkins.mkProcEnv (Some (js "http://ci/")) (Some (js "http://ci/b/1/"))
                       (Some (js "myjob")) None) = None /\
  fst (Jenkins.formatJenkinsImageUrls
         (Jenkins.mkProcEnv (Some (js "http://ci/")) (Some (js "http://ci/b/1/"))
            (Some (js "myjob")) None) (js "/w/report") (js "x.png")) = None.
Proof.
  split; [reflexivity|].
  apply (proj2 formatJenkinsImageUrls_example_and_no_workspace). reflexivity.
Defined.

(* --------------------------------------------------------------------- *)
(** ** Concrete hosts for the examples *)

Module Sample.
Import Host.

Definition no_faults : list jstr -> option errobj := fun _ => None.

Definition no_jenkins : Jenkins.proc_env := Jenkins.mkProcEnv None None None None.

Definition script_error : errobj :=
  mkErr (js "JavascriptError") (js "javascript error: fpti is not defined") None false.

(** A driver with the given session whose calls all succeed, except the
    DOM-inspection script on a page without the global [fpti]. *)
Definition env_with (sess : jsval) : env :=
  mkEnv sess (RDone (js "iVBORw0KGgo=")) (RDone (js "<html></html>")) (RFail script_error)
        (js "/home/u") no_jenkins no_faults no_faults.

Definition live_session : jsval := JObj (mkErr (js "Session") [] None false).

Definition root_fs : fs_state := mkFs ∅ {[ [] ]}.

End Sample.

(* --------------------------------------------------------------------- *)
(** ** snap without a session *)

(** C2: when [driver.getSession()] is falsy, [snap] creates no directory
    and writes no file (the file system is unchanged and no [mkdirp] or
    [writeFile] is issued) and its promise is fulfilled with the sentinel
    [true]. *)
Theorem snap_no_session_noop (E : Host.env) (screenShotPath filename : jstr)
    (fs : Host.fs_state) :
  truthy (Host.session E) = false ->
  let '(r, ev, fs') := Capture.snap E screenShotPath filename fs in
  r = Capture.Fulfilled Capture.CTrue /\ fs' = fs /\
  Forall (fun x => Host.fs_event x = false) ev.
Proof.
  intros Hs. unfold Capture.snap. rewrite Hs. simpl.
  split; [reflexivity|]. split; [reflexivity|]. repeat constructor.
Qed.

Lemma snap_no_session_noop_witness :
  truthy (Host.session (Sample.env_with JNull)) = false /\
  (let '(r, ev, fs') := Capture.snap (Sample.env_with JNull) (js "report") (js "shot") Sample.root_fs in
   r = Capture.Fulfilled Capture.CTrue /\ fs' = Sample.root_fs /\
   Forall (fun x => Host.fs_event x = false) ev).
Proof.
  split; [reflexivity|].
  apply (snap_no_session_noop (Sample.env_with JNull)). reflexivity.
Defined.

(* --------------------------------------------------------------------- *)
(** ** snap: errors are passed through *)

Definition snap_image_path (E : Host.env) (screenShotPath filename : jstr) : jstr :=
  Path.join (Path.resolve (Host.cwd E) screenShotPath) (filename ++ js ".png").

(** C7: a failure of [takeScreenshot] rejects the promise of [snap] with
    exactly that error, and so does a failure of the image write (which
    is attempted once the directory exists). *)
Theorem snap_passes_errors_through (E : Host.env) (screenShotPath filename : jstr)
    (fs : Host.fs_state) (err : errobj) :
  truthy (Host.session E) = true ->
  (Host.screenshot E = Host.RFail err ->
   fst (fst (Capture.snap E screenShotPath filename fs)) = Capture.Rejected err) /\
  (forall (screenImg : jstr) (fs1 : Host.fs_state),
   Host.screenshot E = Host.RDone screenImg ->
   Host.mkdirp_sync E fs (Path.dirname (snap_image_path E screenShotPath filename)) = inr fs1 ->
   Host.write_file E fs1 (snap_image_path E screenShotPath filename)
     (Host.Base64Decoded screenImg) = inl err ->
   fst (fst (Capture.snap E screenShotPath filename fs)) = Capture.Rejected err).
Proof.
  intros Hs. unfold Capture.snap. rewrite Hs. simpl. split.
  - intros Hf. rewrite Hf. reflexivity.
  - intros img fs1 Hd Hm Hw. rewrite Hd.
    unfold snap_image_path in Hm, Hw. rewrite Hm.
    destruct (if Jenkins.env_truthy _ then _ else _) as [urls logs].
    rewrite Hw. reflexivity.
Qed.

Definition eacces : errobj := Host.io_error "EACCES: permission denied".

Definition env_readonly : Host.env :=
  Host.mkEnv Sample.live_session (Host.RDone (js "iVBORw0KGgo=")) (Host.RDone (js "<html></html>"))
    (Host.RFail Sample.script_error) (js "/home/u") Sample.no_jenkins
    Sample.no_faults (fun _ => Some eacces).

Definition env_no_screenshot : Host.env :=
  Host.mkEnv Sample.live_session (Host.RFail Sample.script_error) (Host.RDone (js "<html></html>"))
    (Host.RFail Sample.script_error) (js "/home/u") Sample.no_jenkins
    Sample.no_faults Sample.no_faults.

Lemma snap_passes_errors_through_witness :
  fst (fst (Capture.snap env_no_screenshot (js "report") (js "shot") Sample.root_fs)) =
    Capture.Rejected Sample.script_error /\
  (exists fs1,
   Host.mkdirp_sync env_readonly Sample.root_fs
     (Path.dirname (snap_image_path env_readonly (js "report") (js "shot"))) = inr fs1 /\
   Host.write_file env_readonly fs1 (snap_image_path env_readonly (js "report") (js "shot"))
     (Host.Base64Decoded (js "iVBORw0KGgo=")) = inl eacces /\
   fst (fst (Capture.snap env_readonly (js "report") (js "shot") Sample.root_fs)) =
     Capture.Rejected eacces).
Proof.
  split.
  - apply (proj1 (snap_passes_errors_through env_no_screenshot (js "report") (js "shot")
                    Sample.root_fs Sample.script_error eq_refl)).
    reflexivity.
  - eexists. split; [vm_compute; reflexivity|]. split; [vm_compute; reflexivity|].
    eapply (proj2 (snap_passes_errors_through env_readonly (js "report") (js "shot")
                    Sample.root_fs eacces eq_refl) (js "iVBORw0KGgo=")); vm_compute; reflexivity.
Defined.

(* --------------------------------------------------------------------- *)
(** ** Path lemmas *)

Module PathFacts.
Import Path.

Definition no_slash (s : jstr) : Prop := Forall (fun c => is_slash c = false) s.

(** A segment kept by [normalizeString(_, false)]. *)
Definition good_seg (s : jstr) : Prop :=
  no_slash s /\ s <> [] /\ s <> js "." /\ s <> js "..".

Lemma split_slash_nonempty (s : jstr) : split_slash s <> [].
Proof.
  induction s as [|c r IH]; simpl; [discriminate|].
  destruct (is_slash c); [discriminate|].
  destruct (split_slash r); discriminate.
Qed.

Lemma split_slash_app (x y : jstr) :
  split_slash (x ++ 47 :: y) = split_slash x ++ split_slash y.
Proof.
  induction x as [|c x' IH]; simpl; [reflexivity|].
  rewrite IH. destruct (is_slash c); [reflexivity|].
  pose proof (split_slash_nonempty x') as Hne.
  destruct (split_slash x'); [congruence|]. reflexivity.
Qed.

Lemma split_slash_no_slash (s : jstr) : no_slash s -> split_slash s = [s].
Proof.
  induction 1 as [|c r Hc Hr IH]; simpl; [reflexivity|].
  rewrite Hc, IH. reflexivity.
Qed.

Lemma split_slash_pieces (s : jstr) : Forall no_slash (split_slash s).
Proof.
  induction s as [|c r IH]; simpl.
  - repeat constructor.
  - destruct (is_slash c) eqn:Hc.
    + constructor; [constructor|exact IH].
    + destruct (split_slash r) as [|p ps]; [repeat constructor; exact Hc|].
      inversion IH; subst. constructor; [constructor; assumption|assumption].
Qed.

Lemma split_slash_last (x y : jstr) :
  no_slash y -> exists pre p, split_slash (x ++ y) = pre ++ [p ++ y].
Proof.
  intros Hy. induction x as [|c x' IH]; simpl.
  - exists [], []. rewrite split_slash_no_slash by exact Hy. reflexivity.
  - destruct IH as [pre [p Heq]]. rewrite Heq.
    destruct (is_slash c).
    + exists ([] :: pre), p. reflexivity.
    + destruct pre as [|q pre'].
      * exists [], (c :: p). reflexivity.
      * exists ((c :: q) :: pre'), p. reflexivity.
Qed.

Lemma norm_go_app (b : bool) (acc l1 l2 : list jstr) :
  norm_go b acc (l1 ++ l2) = norm_go b (rev (norm_go b acc l1)) l2.
Proof.
  revert acc. induction l1 as [|s r IH]; intros acc; simpl.
  - rewrite rev_involutive. reflexivity.
  - destruct (jstr_eqb s [] || jstr_eqb s (js ".")); [apply IH|].
    destruct (jstr_eqb s (js "..")); [|apply IH].
    destruct acc as [|t acc']; [destruct b; apply IH|].
    destruct (b && jstr_eqb t (js "..")); apply IH.
Qed.

Lemma jstr_eqb_false (a b : jstr) : a <> b -> jstr_eqb a b = false.
Proof. intros H. unfold jstr_eqb. apply bool_decide_false. exact H. Qed.

Lemma jstr_eqb_true (a b : jstr) : jstr_eqb a b = true -> a = b.
Proof. unfold jstr_eqb. apply bool_decide_eq_true_1. Qed.

(** Without [..], normalization drops the empty and [.] segments. *)
Definition kept (s : jstr) : bool := negb (jstr_eqb s [] || jstr_eqb s (js ".")).

Lemma norm_go_no_dotdot (b : bool) (acc l : list jstr) :
  Forall (fun s => s <> js "..") l ->
  norm_go b acc l = rev acc ++ List.filter kept l.
Proof.
  intros Hl. revert acc. induction Hl as [|s r Hs Hr IH]; intros acc; simpl.
  - rewrite app_nil_r. reflexivity.
  - change (kept s) with (negb (jstr_eqb s [] || jstr_eqb s (js "."))).
    destruct (jstr_eqb s [] || jstr_eqb s (js ".")) eqn:Hk; simpl.
    + apply IH.
    + rewrite (jstr_eqb_false s (js "..") Hs), IH. simpl.
      rewrite <- app_assoc. reflexivity.
Qed.

Lemma norm_go_good (acc l : list jstr) :
  Forall good_seg acc -> Forall no_slash l -> Forall good_seg (norm_go false acc l).
Proof.
  intros Hacc Hl. revert acc Hacc. induction Hl as [|s r Hs Hr IH]; intros acc Hacc; simpl.
  - apply Forall_rev. exact Hacc.
  - destruct (jstr_eqb s []) eqn:He; [apply IH; exact Hacc|].
    destruct (jstr_eqb s (js ".")) eqn:Hd; [apply IH; exact Hacc|]. simpl.
    destruct (jstr_eqb s (js "..")) eqn:Hdd.
    + destruct acc as [|t acc']; simpl; apply IH; [constructor|].
      inversion Hacc; assumption.
    + apply IH. constructor; [|exact Hacc].
      repeat split; [exact Hs| |  |];
        intros Heq; subst; vm_compute in He, Hd, Hdd; discriminate.
Qed.

Lemma norm_go_good_id (b : bool) (acc l : list jstr) :
  Forall good_seg l -> norm_go b acc l = rev acc ++ l.
Proof.
  intros Hl. revert acc. induction Hl as [|s r [Hs [H1 [H2 H3]]] Hr IH]; intros acc; simpl.
  - rewrite app_nil_r. reflexivity.
  - rewrite (jstr_eqb_false _ _ H1), (jstr_eqb_false _ _ H2), (jstr_eqb_false _ _ H3).
    simpl. rewrite IH. simpl. rewrite <- app_assoc. reflexivity.
Qed.

Lemma split_join_sep (T : list jstr) :
  T <> [] -> Forall no_slash T -> split_slash (join_sep T) = T.
Proof.
  induction T as [|s r IH]; intros Hne HT; [congruence|].
  inversion HT as [|? ? Hs Hr]; subst.
  destruct r as [|s' r'].
  - simpl. apply split_slash_no_slash. exact Hs.
  - change (join_sep (s :: s' :: r')) with (s ++ [47] ++ join_sep (s' :: r')).
    change ([47] ++ join_sep (s' :: r')) with (47 :: join_sep (s' :: r')).
    rewrite split_slash_app, (split_slash_no_slash s Hs).
    rewrite IH by (discriminate || exact Hr). reflexivity.
Qed.

(** The segments of the rendering ["/" + T.join("/")] are [T]. *)
Lemma segments_render (T : list jstr) :
  Forall good_seg T -> segments (js "/" ++ join_sep T) = T.
Proof.
  intros HT. unfold segments.
  change (js "/" ++ join_sep T) with (47 :: join_sep T).
  change (split_slash (47 :: join_sep T)) with ([] :: split_slash (join_sep T)).
  destruct T as [|s r].
  - reflexivity.
  - rewrite split_join_sep.
    + change (norm_go false [] ([] :: s :: r)) with (norm_go false [] (s :: r)).
      rewrite norm_go_good_id by exact HT. reflexivity.
    + discriminate.
    + eapply Forall_impl; [exact HT|]. intros x [Hx _]. exact Hx.
Qed.

Lemma split_slash_last_piece (x y : jstr) :
  no_slash y -> exists pre p, split_slash x = pre ++ [p] /\ split_slash (x ++ y) = pre ++ [p ++ y].
Proof.
  intros Hy. induction x as [|c x' IH]; simpl.
  - exists [], []. rewrite split_slash_no_slash by exact Hy. auto.
  - destruct IH as [pre [p [Hx Heq]]]. rewrite Hx, Heq.
    destruct (is_slash c).
    + exists ([] :: pre), p. auto.
    + destruct pre as [|q pre'].
      * exists [], (c :: p). auto.
      * exists ((c :: q) :: pre'), p. auto.
Qed.

Lemma resolve_render (cwd d : jstr) :
  is_absolute cwd = true ->
  exists S, Forall good_seg S /\ resolve cwd d = js "/" ++ join_sep S.
Proof.
  intros Hc. unfold resolve.
  destruct (jstr_eqb d []); [|destruct (is_absolute d)]; rewrite ?Hc;
    eexists; (split; [|reflexivity]);
    apply norm_go_good; [constructor| |constructor| |constructor|]; apply split_slash_pieces.
Qed.

Lemma last_png (f : jstr) : last (f ++ js ".png") = Some 103.
Proof.
  replace (f ++ js ".png") with ((f ++ [46; 112; 110]) ++ [103])
    by (rewrite <- app_assoc; reflexivity).
  apply last_snoc.
Qed.

Lemma join_render (S : list jstr) (n : jstr) :
  Forall good_seg S -> n <> [] -> ends_with_slash n = false ->
  Forall (fun s => s <> js "..") (split_slash n) ->
  join (js "/" ++ join_sep S) n = js "/" ++ join_sep (S ++ List.filter kept (split_slash n)) /\
  Forall good_seg (S ++ List.filter kept (split_slash n)).
Proof.
  intros HS Hn Hend Hdd.
  set (a := js "/" ++ join_sep S).
  assert (Hsplit : split_slash (a ++ js "/" ++ n) = split_slash a ++ split_slash n)
    by apply split_slash_app.
  assert (HT : norm_go false [] (split_slash (a ++ js "/" ++ n)) =
               S ++ List.filter kept (split_slash n)).
  { rewrite Hsplit, norm_go_app.
    change (norm_go false [] (split_slash a)) with (segments a).
    unfold a. rewrite segments_render by exact HS.
    rewrite norm_go_no_dotdot by exact Hdd. rewrite rev_involutive. reflexivity. }
  assert (Hgood : Forall good_seg (S ++ List.filter kept (split_slash n))).
  { rewrite <- HT. apply norm_go_good; [constructor|apply split_slash_pieces]. }
  split; [|exact Hgood].
  unfold join.
  rewrite (jstr_eqb_false a []) by (unfold a; discriminate).
  rewrite (jstr_eqb_false n []) by exact Hn.
  rewrite (jstr_eqb_false (a ++ js "/" ++ n) []) by (unfold a; discriminate).
  unfold normalize.
  rewrite (jstr_eqb_false (a ++ js "/" ++ n) []) by (unfold a; discriminate).
  assert (Habs : is_absolute (a ++ js "/" ++ n) = true) by reflexivity.
  assert (Htr : ends_with_slash (a ++ js "/" ++ n) = false).
  { unfold ends_with_slash in *. destruct n as [|c n'] using rev_ind; [congruence|].
    rewrite !app_assoc, last_snoc. rewrite last_snoc in Hend. exact Hend. }
  rewrite Habs, Htr. simpl negb. unfold normalizeString. rewrite HT.
  destruct (jstr_eqb (join_sep (S ++ List.filter kept (split_slash n))) []) eqn:He.
  - apply jstr_eqb_true in He. rewrite He. reflexivity.
  - reflexivity.
Qed.

End PathFacts.

(** [p] lies strictly below the directory [dir]. *)
Definition path_under (dir p : jstr) : Prop :=
  exists rest, rest <> [] /\ Path.segments p = Path.segments dir ++ rest.

(* --------------------------------------------------------------------- *)
(** ** snap with a session: the image file *)

Lemma snap_fulfilled_image (E : Host.env) (screenShotPath filename : jstr)
    (fs : Host.fs_state) (o : Capture.image_obj) (ev : list Host.event) (fs' : Host.fs_state) :
  Capture.snap E screenShotPath filename fs = (Capture.Fulfilled (Capture.CImage o), ev, fs') ->
  Capture.imageName o = filename ++ js ".png" /\
  Capture.imagePath o = snap_image_path E screenShotPath filename /\
  exists img, Host.screenshot E = Host.RDone img /\
    Host.files fs' !! Host.key E (Capture.imagePath o) = Some (Host.Base64Decoded img).
Proof.
  unfold Capture.snap.
  destruct (negb (truthy (Host.session E))); [congruence|].
  destruct (Host.screenshot E) as [img|e|]; try congruence.
  destruct (Host.mkdirp_sync _ _ _) as [e|fs1]; [congruence|].
  destruct (if Jenkins.env_truthy _ then _ else _) as [urls logs].
  unfold Host.write_file.
  destruct (Host.write_err _ _); [congruence|].
  destruct (bool_decide _); [congruence|].
  destruct (bool_decide _); [|congruence].
  intros H.
  destruct urls as [u|]; inversion H; subst; clear H; simpl;
    (split; [reflexivity|]); (split; [reflexivity|]); exists img; split; try reflexivity;
    apply lookup_insert_eq.
Qed.

Definition sample_live : Host.env := Sample.env_with Sample.live_session.

(** C3 as stated fails: with the filename ["../x"] and the base directory
    ["/d"], [snap] is fulfilled with [imageName = "../x.png"] and an
    [imagePath] of ["/x.png"], which is not under ["/d"]. *)
Lemma snap_image_path_escapes_base_dir :
  exists o ev fs',
    Capture.snap sample_live (js "/d") (js "../x") Sample.root_fs =
      (Capture.Fulfilled (Capture.CImage o), ev, fs') /\
    Capture.imageName o = js "../x" ++ js ".png" /\
    Capture.imagePath o = js "/x.png" /\
    ~ path_under (Path.resolve (Host.cwd sample_live) (js "/d")) (Capture.imagePath o).
Proof.
  eexists _, _, _. split; [vm_compute; reflexivity|].
  split; [reflexivity|]. split; [reflexivity|].
  intros [rest [_ Hseg]]. vm_compute in Hseg. discriminate.
Qed.

(** C3 (amended): when [snap] with a session is fulfilled with an image
    object, [imageName] is [filename + ".png"], [imagePath] is
    [path.join(path.resolve(d), filename + ".png")], the file exists at
    that path and holds the decoded screenshot; when the filename has no
    [..] segment (and the working directory is absolute, as
    [process.cwd()] is), [imagePath] lies under [path.resolve(d)]. *)
Theorem snap_image_under_base_dir (E : Host.env) (d f : jstr) (fs : Host.fs_state)
    (o : Capture.image_obj) (ev : list Host.event) (fs' : Host.fs_state) :
  Capture.snap E d f fs = (Capture.Fulfilled (Capture.CImage o), ev, fs') ->
  Capture.imageName o = f ++ js ".png" /\
  Capture.imagePath o = Path.join (Path.resolve (Host.cwd E) d) (f ++ js ".png") /\
  (exists img, Host.screenshot E = Host.RDone img /\
    Host.files fs' !! Host.key E (Capture.imagePath o) = Some (Host.Base64Decoded img)) /\
  (Path.is_absolute (Host.cwd E) = true ->
   Forall (fun s => s <> js "..") (Path.split_slash f) ->
   path_under (Path.resolve (Host.cwd E) d) (Capture.imagePath o)).
Proof.
  intros Hsnap.
  destruct (snap_fulfilled_image E d f fs o ev fs' Hsnap) as [Hname [Hpath Hfile]].
  split; [exact Hname|]. split; [exact Hpath|]. split; [exact Hfile|].
  intros Hcwd Hf.
  destruct (PathFacts.resolve_render (Host.cwd E) d Hcwd) as [S [HS HR]].
  destruct (PathFacts.split_slash_last_piece f (js ".png")) as [pre [p [Hsf Hsfp]]].
  { repeat constructor. }
  assert (Hp : p ++ js ".png" <> js ".." /\ p ++ js ".png" <> js "." /\ p ++ js ".png" <> []).
  { repeat split; intros Heq; apply (f_equal (@length Z)) in Heq;
      rewrite length_app in Heq; simpl in Heq; lia. }
  destruct Hp as [Hp1 [Hp2 Hp3]].
  assert (Hdd : Forall (fun s => s <> js "..") (Path.split_slash (f ++ js ".png"))).
  { rewrite Hsfp. rewrite Hsf in Hf. apply Forall_app in Hf as [Hpre _].
    apply Forall_app. split; [exact Hpre|]. constructor; [exact Hp1|constructor]. }
  destruct (PathFacts.join_render S (f ++ js ".png") HS) as [HJ HG].
  { destruct f; discriminate. }
  { unfold Path.ends_with_slash. rewrite PathFacts.last_png. reflexivity. }
  { exact Hdd. }
  exists (List.filter PathFacts.kept (Path.split_slash (f ++ js ".png"))). split.
  - rewrite Hsfp, List.filter_app. simpl.
    unfold PathFacts.kept at 2.
    rewrite (PathFacts.jstr_eqb_false _ _ Hp3), (PathFacts.jstr_eqb_false _ _ Hp2). simpl.
    destruct (List.filter PathFacts.kept pre); discriminate.
  - rewrite Hpath. unfold snap_image_path. rewrite HR, HJ.
    rewrite !PathFacts.segments_render by assumption. reflexivity.
Qed.

Lemma snap_image_under_base_dir_witness :
  exists o ev fs',
    Capture.snap sample_live (js "report") (js "shot") Sample.root_fs =
      (Capture.Fulfilled (Capture.CImage o), ev, fs') /\
    Capture.imageName o = js "shot" ++ js ".png" /\
    path_under (Path.resolve (Host.cwd sample_live) (js "report")) (Capture.imagePath o).
Proof.
  eexists _, _, _. split; [vm_compute; reflexivity|].
  destruct (snap_image_under_base_dir sample_live (js "report") (js "shot") Sample.root_fs
              _ _ _ ltac:(vm_compute; reflexivity)) as [Hname [_ [_ Hunder]]].
  split; [exact Hname|].
  apply Hunder.
  - reflexivity.
  - repeat constructor; vm_compute; discriminate.
Defined.

(* --------------------------------------------------------------------- *)
(** ** done *)

Lemma append_cases (v : Capture.capture) (err : jsval) :
  (truthy err = false -> Capture.appendImageUrlToStackTrace v err = inr err) /\
  (forall o, err = JObj o -> exists st,
     Capture.appendImageUrlToStackTrace v err =
       inr (JObj (mkErr (ename o) (emessage o) st (handled o)))).
Proof.
  split.
  - intros Hf. unfold Capture.appendImageUrlToStackTrace.
    destruct (match v with Capture.CImage o => _ | _ => _ end) as [u a].
    rewrite Hf. reflexivity.
  - intros o ->. unfold Capture.appendImageUrlToStackTrace.
    destruct (match v with Capture.CImage o => _ | _ => _ end) as [u a].
    simpl. eexists. reflexivity.
Qed.

(** On an error object, the update appends to the old stack (the text
    "undefined" when there was none) a block that starts with a newline,
    and keeps every other field. *)
Lemma append_obj_stack (v : Capture.capture) (o : errobj) :
  exists out, hd_error out = Some 10 /\
    Capture.appendImageUrlToStackTrace v (JObj o) =
      inr (JObj (mkErr (ename o) (emessage o) (Some (opt_to_jstr (estack o) ++ out)) (handled o))).
Proof.
  unfold Capture.appendImageUrlToStackTrace.
  destruct (match v with Capture.CImage i => _ | _ => _ end) as [u a]. cbn [truthy].
  destruct (Jenkins.env_truthy u || Jenkins.env_truthy a);
    (eexists; split; [|reflexivity]; reflexivity).
Qed.

(** C6 as stated fails: [done] with the error argument ["boom"] (a
    string) and a [snap] that is fulfilled (here with the no-session
    sentinel) never calls its callback: [err.stack = ...] on a string
    throws a [TypeError] in strict mode. *)
Lemma done_primitive_error_no_callback :
  fst (fst (Capture.snap (Sample.env_with JNull) (js "report") (js "shot") Sample.root_fs)) =
    Capture.Fulfilled Capture.CTrue /\
  fst (fst (Capture.done (Sample.env_with JNull) (js "report") (js "shot")
              (JStr (js "boom")) Sample.root_fs)) = [].
Proof. split; reflexivity. Qed.

(** C6 (amended): for an error argument that is falsy or an object, once
    [snap] settles, [done] calls its callback exactly once: with the
    error (unchanged when falsy, the same object with only its [stack]
    extended otherwise: its name, message and flags kept and a non-empty
    block appended to its old stack, the text "undefined" when it had
    none) when [snap] is fulfilled, with [snap]'s error when [snap] is
    rejected. *)
Theorem done_calls_back_once (E : Host.env) (d f : jstr) (err : jsval) (fs : Host.fs_state) :
  (truthy err = false \/ exists o, err = JObj o) ->
  (forall v ev fs', Capture.snap E d f fs = (Capture.Fulfilled v, ev, fs') ->
     exists err',
       fst (fst (Capture.done E d f err fs)) = [err'] /\
       (truthy err = false -> err' = err) /\
       (forall o, err = JObj o -> exists out, out <> [] /\
          err' = JObj (mkErr (ename o) (emessage o) (Some (opt_to_jstr (estack o) ++ out)) (handled o)))) /\
  (forall e ev fs', Capture.snap E d f fs = (Capture.Rejected e, ev, fs') ->
     fst (fst (Capture.done E d f err fs)) = [JObj e]).
Proof.
  intros Herr. split.
  - intros v ev fs' Hs. unfold Capture.done. rewrite Hs.
    destruct (append_cases v err) as [Hfalsy Hobj].
    destruct Herr as [Hf | [o Ho]].
    + rewrite (Hfalsy Hf). exists err. split; [reflexivity|]. split; [reflexivity|].
      intros o ->. discriminate.
    + subst err. destruct (append_obj_stack v o) as [out [Hhd Hst]]. rewrite Hst.
      eexists. split; [reflexivity|]. split; [discriminate|].
      intros o' Ho'. injection Ho' as <-. exists out. split; [|reflexivity].
      destruct out; discriminate.
  - intros e ev fs' Hs. unfold Capture.done. rewrite Hs. reflexivity.
Qed.

Definition test_error : errobj :=
  mkErr (js "AssertionError") (js "expected 1 to equal 2") (Some (js "AssertionError: expected 1 to equal 2")) false.

Lemma done_calls_back_once_witness :
  exists err',
    fst (fst (Capture.done sample_live (js "report") (js "shot") (JObj test_error) Sample.root_fs)) =
      [err'] /\
    fst (fst (Capture.done env_readonly (js "report") (js "shot") (JObj test_error) Sample.root_fs)) =
      [JObj eacces].
Proof.
  destruct (done_calls_back_once sample_live (js "report") (js "shot") (JObj test_error)
              Sample.root_fs (or_intror (ex_intro _ test_error eq_refl))) as [Hok _].
  destruct (done_calls_back_once env_readonly (js "report") (js "shot") (JObj test_error)
              Sample.root_fs (or_intror (ex_intro _ test_error eq_refl))) as [_ Hrej].
  destruct (Hok _ _ _ ltac:(vm_compute; reflexivity)) as [err' [Hcall _]].
  exists err'. split; [exact Hcall|].
  eapply Hrej. vm_compute. reflexivity.
Defined.

(** C10: with a falsy error argument ([null] or [undefined]) and a
    fulfilled [snap], [done] calls its callback exactly once, with that
    same value, and nothing else is touched. *)
Theorem done_falsy_error_unchanged (E : Host.env) (d f : jstr) (err : jsval) (fs : Host.fs_state)
    (v : Capture.capture) (ev : list Host.event) (fs' : Host.fs_state) :
  err = JNull \/ err = JUndefined ->
  Capture.snap E d f fs = (Capture.Fulfilled v, ev, fs') ->
  Capture.done E d f err fs = ([err], ev, fs').
Proof.
  intros Herr Hs. unfold Capture.done. rewrite Hs.
  destruct (append_cases v err) as [Hfalsy _].
  rewrite Hfalsy by (destruct Herr; subst; reflexivity). reflexivity.
Qed.

Lemma done_falsy_error_unchanged_witness :
  exists ev fs',
    Capture.snap sample_live (js "report") (js "shot") Sample.root_fs =
      (Capture.Fulfilled (Capture.CImage
         (Capture.mkImage (js "shot.png") (js "/home/u/report/shot.png") None None)), ev, fs') /\
    Capture.done sample_live (js "report") (js "shot") JNull Sample.root_fs = ([JNull], ev, fs').
Proof.
  eexists _, _. split; [vm_compute; reflexivity|].
  eapply done_falsy_error_unchanged; [left; reflexivity|]. vm_compute. reflexivity.
Defined.

(* --------------------------------------------------------------------- *)
(** ** source: the DOM-inspection side channel *)

Definition is_log (x : Host.event) : bool :=
  match x with Host.ELog _ | Host.EConsoleError _ => true | _ => false end.

(** C8: on a page where the inspection script fails (it reads the page
    global [fpti], so it throws where that is undefined), the promise of
    [source] is still fulfilled from the page source and the [.html]
    write, but the script's failure is not logged: the promise returned
    by [executeScript(...).then(...)] is rejected with no handler, an
    unhandled rejection. *)
Theorem source_script_failure_unhandled :
  let '(r, ev, fs') := Capture.source sample_live (js "report") (js "shot") Sample.root_fs in
  r = Capture.Fulfilled (Capture.CSource
        (Capture.mkSource (js "shot.html") (js "/home/u/report/shot.html"))) /\
  In (Host.EUnhandledRejection Sample.script_error) ev /\
  Forall (fun x => is_log x = false) ev.
Proof.
  vm_compute. split; [reflexivity|]. split.
  - right. right. right. left. reflexivity.
  - repeat constructor.
Qed.

(** For comparison, a failing [.txt] write (here a permission fault on
    that file alone, in an existing report directory) is logged with
    [console.error], and [source] is still fulfilled. *)
Definition txt_fault (k : list jstr) : option errobj :=
  if bool_decide (last k = Some (js "shot.txt")) then Some eacces else None.

Lemma source_txt_write_failure_logged :
  let E := Host.mkEnv Sample.live_session (Host.RDone (js "iVBORw0KGgo="))
             (Host.RDone (js "<html></html>")) (Host.RDone (js "[]")) (js "/home/u")
             Sample.no_jenkins Sample.no_faults txt_fault in
  let fs0 := Host.mkFs ∅ {[ []; [js "home"]; [js "home"; js "u"]; [js "home"; js "u"; js "report"] ]} in
  let '(r, ev, _) := Capture.source E (js "report") (js "shot") fs0 in
  r = Capture.Fulfilled (Capture.CSource
        (Capture.mkSource (js "shot.html") (js "/home/u/report/shot.html"))) /\
  In (Host.EConsoleError eacces) ev.
Proof.
  vm_compute. split; [reflexivity|]. right. right. right. right. left. reflexivity.
Qed.

(* --------------------------------------------------------------------- *)
(** ** The exception hook on an exception it has already handled *)

Module HookFacts.
Import Hook.

Definition reemit_only (r : hout) : Prop :=
  Forall (fun x => x = HEmit) (hev r) /\ htasks r = [] /\ hthrow r <> None.

Lemma dispatch_reemit_only (h : errobj -> hout) (ls : list listener) (e : errobj) :
  (forall e', handled e' = true -> reemit_only (h e')) ->
  handled e = true -> In LHook ls -> reemit_only (dispatch h ls e).
Proof.
  intros Hh He. induction ls as [|l r IH]; intros Hin; [destruct Hin|].
  destruct l as [|b]; simpl.
  - destruct (Hh e He) as [Hev [Ht Hth]]. unfold hseq.
    destruct (hthrow (h e)) eqn:Hx; [|congruence].
    split; [exact Hev|]. split; [exact Ht|]. rewrite Hx. discriminate.
  - destruct b.
    + split; [constructor|]. split; [reflexivity|]. discriminate.
    + apply IH. destruct Hin as [Hc|Hin]; [discriminate|exact Hin].
Qed.

Lemma hook_handled_reemit_only (ls : list listener) (n : nat) (e : errobj) :
  handled e = true -> In LHook ls ->
  reemit_only (hook ls n e) /\
  (n <> O -> hd_error (hev (hook ls n e)) = Some HEmit).
Proof.
  intros He Hin. revert e He. induction n as [|m IH]; intros e He.
  - split; [|congruence]. split; [constructor|]. split; [reflexivity|]. discriminate.
  - assert (Hd : reemit_only (dispatch (hook ls m) ls e)).
    { apply dispatch_reemit_only; [|exact He|exact Hin].
      intros e' He'. apply (IH e' He'). }
    destruct Hd as [Hev [Ht Hth]].
    simpl. rewrite He. unfold emit_with, hseq at 2. simpl.
    unfold hseq. simpl.
    destruct (hthrow (dispatch (hook ls m) ls e)) eqn:Hx; [|congruence]. simpl.
    split; [|reflexivity].
    split; [constructor; [reflexivity|exact Hev]|]. split; [exact Ht|]. discriminate.
Qed.

End HookFacts.

(** C1: when the hook receives an exception whose
    [_nemoScreenshotHandled] flag is already set (on a flow on which the
    hook is registered), its first action is to re-emit the exception,
    and the pass issues nothing else: no [getSession] query is chained,
    so no [snap] and no [source] capture follows. (The re-emission
    re-enters the hook with the same marked exception, so the pass ends
    by throwing, at the latest when the stack is exhausted.) *)
Theorem hook_marked_exception_reemits_without_capture
    (listeners : list Hook.listener) (n : nat) (exception : errobj) :
  handled exception = true -> In Hook.LHook listeners ->
  let r := Hook.hook listeners (S n) exception in
  hd_error (Hook.hev r) = Some Hook.HEmit /\
  Forall (fun x => x = Hook.HEmit) (Hook.hev r) /\
  Hook.htasks r = [] /\
  Hook.hthrow r <> None.
Proof.
  intros He Hin r.
  destruct (HookFacts.hook_handled_reemit_only listeners (S n) exception He Hin)
    as [[Hev [Ht Hth]] Hhd].
  split; [apply Hhd; discriminate|]. split; [exact Hev|]. split; [exact Ht|exact Hth].
Qed.

Definition thrown_error : errobj :=
  mkErr (js "NoSuchElementError") (js "no such element") None true.

Lemma hook_marked_exception_reemits_without_capture_witness :
  handled thrown_error = true /\
  let r := Hook.hook [Hook.LOther false; Hook.LHook] 5 thrown_error in
  hd_error (Hook.hev r) = Some Hook.HEmit /\
  Forall (fun x => x = Hook.HEmit) (Hook.hev r) /\
  Hook.htasks r = [] /\
  Hook.hthrow r <> None.
Proof.
  split; [reflexivity|].
  apply (hook_marked_exception_reemits_without_capture [Hook.LOther false; Hook.LHook] 4 thrown_error).
  - reflexivity.
  - right. left. reflexivity.
Defined.

(** The first pass on a fresh exception marks it and chains the session
    query; the chained continuation captures and then re-emits. *)
Example hook_first_pass :
  let e := mkErr (js "NoSuchElementError") (js "no such element") None false in
  let r := Hook.hook [Hook.LHook] 5 e in
  Hook.hev r = [Hook.HMark; Hook.HGetSession] /\ Hook.htasks r = [Hook.mark e] /\
  Hook.hthrow r = None.
Proof. vm_compute. repeat split. Qed.

Example hook_first_pass_continuation :
  let H := Hook.mkHenv (Host.RDone Sample.live_session) (Some (js "My Test: Case #1"))
             [js "exception"] (js "ScreenShot_onException-1-2")
             (fun _ => Capture.Fulfilled Capture.CTrue) in
  let r := Hook.run_task [Hook.LHook] 5 H thrown_error in
  firstn 3 (Hook.hev r) = [Hook.HSnap (js "My_Test__Case__1"); Hook.HAnnotate; Hook.HEmit] /\
  Hook.hthrow r = Some Hook.range_error.
Proof. vm_compute. split; reflexivity. Qed.

(* ===================================================================== *)
(** * Further properties of the code *)

(* --------------------------------------------------------------------- *)
(** ** source *)

Definition source_path (E : Host.env) (screenShotPath filename : jstr) : jstr :=
  Path.join (Path.resolve (Host.cwd E) screenShotPath) (filename ++ js ".html").

(** A failure of [getPageSource] rejects [source] with that error,
    whatever the inspection script does. *)
Theorem source_passes_page_source_error (E : Host.env) (screenShotPath filename : jstr)
    (fs : Host.fs_state) (err : errobj) :
  truthy (Host.session E) = true -> Host.page_source E = Host.RFail err ->
  fst (fst (Capture.source E screenShotPath filename fs)) = Capture.Rejected err.
Proof.
  intros Hs Hp. unfold Capture.source. rewrite Hs, Hp. simpl.
  destruct (Host.script_result E); [destruct (Host.write_file _ _ _ _)| |]; reflexivity.
Qed.

Lemma source_passes_page_source_error_witness :
  let E := Host.mkEnv Sample.live_session (Host.RDone (js "iVBORw0KGgo="))
             (Host.RFail Sample.script_error) (Host.RDone (js "[]")) (js "/home/u")
             Sample.no_jenkins Sample.no_faults Sample.no_faults in
  fst (fst (Capture.source E (js "report") (js "shot") Sample.root_fs)) =
    Capture.Rejected Sample.script_error.
Proof. apply source_passes_page_source_error; reflexivity. Defined.

(** Once [source] is fulfilled with a source object, [sourceName] is
    [filename + ".html"], [sourcePath] is
    [path.join(path.resolve(d), filename + ".html")] and the file there
    holds the page source as text. *)
Theorem source_fulfilled_file (E : Host.env) (d f : jstr) (fs : Host.fs_state)
    (o : Capture.source_obj) (ev : list Host.event) (fs' : Host.fs_state) :
  Capture.source E d f fs = (Capture.Fulfilled (Capture.CSource o), ev, fs') ->
  Capture.sourceName o = f ++ js ".html" /\
  Capture.sourcePath o = source_path E d f /\
  exists src, Host.page_source E = Host.RDone src /\
    Host.files fs' !! Host.key E (Capture.sourcePath o) = Some (Host.Utf8Text src).
Proof.
  unfold Capture.source.
  destruct (negb (truthy (Host.session E))); [congruence|].
  destruct (Host.script_result E) as [r|e'|];
    [destruct (Host.write_file E fs _ _) as [e'|fs1']| |]; cbn zeta iota beta.
  all: destruct (Host.page_source E) as [src|e|]; try congruence.
  all: destruct (Host.mkdirp_sync _ _ _) as [e|fs2]; [congruence|].
  all: unfold Host.write_file.
  all: destruct (Host.write_err _ _); [congruence|].
  all: destruct (bool_decide _); [congruence|].
  all: destruct (bool_decide _); [|congruence].
  all: intros H; inversion H; subst; clear H; simpl.
  all: split; [reflexivity|]; split; [reflexivity|].
  all: exists src; split; [reflexivity|apply lookup_insert_eq].
Qed.

Lemma source_fulfilled_file_witness :
  exists o ev fs',
    Capture.source sample_live (js "report") (js "shot") Sample.root_fs =
      (Capture.Fulfilled (Capture.CSource o), ev, fs') /\
    Host.files fs' !! Host.key sample_live (Capture.sourcePath o) =
      Some (Host.Utf8Text (js "<html></html>")).
Proof.
  eexists _, _, _. split; [vm_compute; reflexivity|].
  destruct (source_fulfilled_file sample_live (js "report") (js "shot") Sample.root_fs
              (Capture.mkSource (js "shot.html") (js "/home/u/report/shot.html")) _ _
              ltac:(vm_compute; reflexivity)) as [_ [_ [src [Hsrc Hf]]]].
  injection Hsrc as <-. exact Hf.
Defined.

(* --------------------------------------------------------------------- *)
(** ** titleSlug, further *)

Module SlugMore.
Import Slug.

Lemma word_not_space (c : Z) : is_word c = true -> is_js_space c = false.
Proof.
  unfold is_word, is_js_space. intros H.
  rewrite !Bool.orb_true_iff, !Bool.andb_true_iff, !Z.leb_le, !Z.eqb_eq in H.
  apply Bool.not_true_iff_false. intros H'.
  rewrite !Bool.orb_true_iff, !Bool.andb_true_iff, !Z.leb_le, !Z.eqb_eq in H'.
  lia.
Qed.

Lemma drop_space_words (s : jstr) : Forall (fun c => is_word c = true) s -> drop_space s = s.
Proof.
  destruct 1 as [|c r Hc Hr]; simpl; [reflexivity|].
  rewrite (word_not_space c Hc). reflexivity.
Qed.

Lemma trim_words (s : jstr) : Forall (fun c => is_word c = true) s -> trim s = s.
Proof.
  intros H. unfold trim. rewrite (drop_space_words s H).
  rewrite (drop_space_words (rev s)) by (apply Forall_rev; exact H).
  apply rev_involutive.
Qed.

Lemma replace_words (s : jstr) : Forall (fun c => is_word c = true) s -> replace_nonword s = s.
Proof.
  induction 1 as [|c r Hc Hr IH]; simpl; [reflexivity|].
  rewrite Hc. f_equal. exact IH.
Qed.

Lemma slug_words (t : jstr) : Forall (fun c => is_word c = true) (titleSlug t).
Proof.
  unfold titleSlug. destruct (negb (truthy (JStr t))); [constructor|].
  unfold substring0. apply Forall_take. unfold replace_nonword.
  apply List.Forall_forall. intros c Hc. apply in_map_iff in Hc as [d [<- _]].
  destruct (is_word d) eqn:Hd; [exact Hd|reflexivity].
Qed.

End SlugMore.

(** Every code unit of a slug is a word character ([A-Za-z0-9_]), and
    slugging a slug gives it back unchanged. *)
Theorem titleSlug_words_idempotent (title : jstr) :
  Forall (fun c => Slug.is_word c = true) (Slug.titleSlug title) /\
  Slug.titleSlug (Slug.titleSlug title) = Slug.titleSlug title.
Proof.
  split; [apply SlugMore.slug_words|].
  pose proof (SlugMore.slug_words title) as Hw.
  pose proof (titleSlug_trims_replaces_truncates title) as [_ [_ [_ [_ [Hlen _]]]]].
  destruct (Slug.titleSlug title) as [|c r] eqn:Hs; [reflexivity|].
  rewrite SlugFacts.titleSlug_nonempty by discriminate.
  rewrite SlugMore.trim_words, SlugMore.replace_words by exact Hw.
  apply take_ge. exact Hlen.
Qed.

(* --------------------------------------------------------------------- *)
(** ** formatJenkinsImageUrls, general case *)

Lemma truthy_app_cons (a b : jstr) (c : Z) : truthy (JStr (a ++ c :: b)) = true.
Proof.
  unfold truthy, jstr_eqb. rewrite bool_decide_false; [reflexivity|].
  destruct a; discriminate.
Qed.

Lemma env_truthy_job (a b : jstr) : Jenkins.env_truthy (Some (a ++ js "job/" ++ b)) = true.
Proof. apply truthy_app_cons. Qed.

Lemma env_truthy_artifact (a b : jstr) :
  Jenkins.env_truthy (Some (a ++ js "artifact" ++ b)) = true.
Proof. apply truthy_app_cons. Qed.

Lemma truthy_str (s : jstr) : s <> [] -> truthy (JStr s) = true.
Proof. intros H. unfold truthy, jstr_eqb. rewrite bool_decide_false by exact H. reflexivity. Qed.

Lemma truthy_str_false (s : jstr) : truthy (JStr s) = false -> s = [].
Proof. unfold truthy, jstr_eqb. case_bool_decide; [auto|discriminate]. Qed.

(** With a non-empty [WORKSPACE] [w] and a screenshot directory [w ++ rel]:
    the result is [null] exactly when neither [JOB_NAME] nor [BUILD_URL]
    is set (non-empty); a set [JOB_NAME] [j] gives
    [imageUrl = JENKINS_URL + "job/" + j + "/ws" + rel + "/" + name] (with
    [JENKINS_URL] printed as "undefined" when unset) and no log line; a set
    [BUILD_URL] [b] gives [archivedImageUrl = b + "artifact" + rel + "/" + name];
    an unset [JOB_NAME] logs exactly one line. *)
Theorem formatJenkinsImageUrls_relative_to_workspace
    (pe : Jenkins.proc_env) (w rel name : jstr) :
  Jenkins.WORKSPACE pe = Some w -> w <> [] ->
  let r := Jenkins.formatJenkinsImageUrls pe (w ++ rel) name in
  (fst r = None <-> Jenkins.env_truthy (Jenkins.JOB_NAME pe) = false /\
                    Jenkins.env_truthy (Jenkins.BUILD_URL pe) = false) /\
  (forall j, Jenkins.JOB_NAME pe = Some j -> j <> [] ->
     exists u, fst r = Some u /\ snd r = [] /\
       Jenkins.imageUrl u = Some (opt_to_jstr (Jenkins.JENKINS_URL pe) ++ js "job/" ++ j ++
                                  js "/ws" ++ rel ++ js "/" ++ name)) /\
  (forall b, Jenkins.BUILD_URL pe = Some b -> b <> [] ->
     exists u, fst r = Some u /\
       Jenkins.archivedImageUrl u = Some (b ++ js "artifact" ++ rel ++ js "/" ++ name)) /\
  (Jenkins.env_truthy (Jenkins.JOB_NAME pe) = false ->
     snd r = [js "nemo-screenshot was unable to format Jenkins workspace image URL: " ++
              js "JOB_NAME env variable is not defined"]).
Proof.
  intros Hw Hne. cbv zeta. unfold Jenkins.formatJenkinsImageUrls.
  rewrite Hw, (truthy_str w Hne). cbn [negb].
  unfold Jenkins.substr_from. rewrite drop_app_length.
  destruct (Jenkins.JOB_NAME pe) as [j|] eqn:Hj;
  [destruct (truthy (JStr j)) eqn:Htj|];
  destruct (Jenkins.BUILD_URL pe) as [b|] eqn:Hb;
  try (destruct (truthy (JStr b)) eqn:Htb);
  cbn [Jenkins.env_truthy];
  rewrite ?Htj, ?Htb;
  rewrite ?env_truthy_job, ?env_truthy_artifact;
  repeat split; cbn [orb fst snd opt_to_jstr];
  try (intros; discriminate);
  try (intros ? [= <-] ?; eexists; split; [reflexivity|]; try split; reflexivity);
  try (intros ? [= <-] Hn; apply truthy_str in Hn; congruence);
  try (intros [? ?]; discriminate);
  try reflexivity.
Qed.

Lemma formatJenkinsImageUrls_relative_to_workspace_witness :
  Jenkins.WORKSPACE jenkins_example_env = Some (js "/w") /\ js "/w" <> [] /\
  (forall j, Jenkins.JOB_NAME jenkins_example_env = Some j -> j <> [] ->
     exists u, fst (Jenkins.formatJenkinsImageUrls jenkins_example_env
                      (js "/w" ++ js "/report") (js "x.png")) = Some u /\
       snd (Jenkins.formatJenkinsImageUrls jenkins_example_env
              (js "/w" ++ js "/report") (js "x.png")) = [] /\
       Jenkins.imageUrl u = Some (js "http://ci/" ++ js "job/" ++ j ++
                                  js "/ws" ++ js "/report" ++ js "/" ++ js "x.png")).
Proof.
  split; [reflexivity|]. split; [discriminate|].
  exact (proj1 (proj2 (formatJenkinsImageUrls_relative_to_workspace jenkins_example_env
           (js "/w") (js "/report") (js "x.png") eq_refl ltac:(discriminate)))).
Defined.

(* --------------------------------------------------------------------- *)
(** ** The exception hook, further *)

Module TaskFacts.
Import Hook.

Lemma emit_reemit_only (ls : list listener) (n : nat) (e : errobj) :
  handled e = true -> In LHook ls ->
  let r := emit_with ls (hook ls n) e in
  hd_error (hev r) = Some HEmit /\ Forall (fun x => x = HEmit) (hev r) /\
  htasks r = [] /\ hthrow r <> None.
Proof.
  intros He Hin r.
  destruct (HookFacts.dispatch_reemit_only (hook ls n) ls e) as [Hev [Ht Hth]];
    [intros e' He'; apply (HookFacts.hook_handled_reemit_only ls n e' He' Hin)|exact He|exact Hin|].
  unfold r, emit_with, hseq. simpl.
  destruct (hthrow (dispatch (hook ls n) ls e)) eqn:Hx; [|congruence].
  split; [reflexivity|]. split; [constructor; [reflexivity|exact Hev]|].
  split; [exact Ht|]. discriminate.
Qed.




Definition is_capture (x : hevent) : bool :=
  match x with HSource _ | HSnap _ => true | _ => false end.

End TaskFacts.

(** The [getSession] continuation, on the marked exception and with the
    hook registered on the flow: when the session query rejects or
    yields a falsy session, no [source] or [snap] capture is issued; the
    exception is re-emitted (after [e._nemoScreenshotHandled = true] on
    the falsy-session path) and the emission ends by throwing. *)
Theorem run_task_no_session_no_capture
    (ls : list Hook.listener) (depth : nat) (H : Hook.henv) (e : errobj) :
  handled e = true -> In Hook.LHook ls ->
  ((exists err, Hook.get_session H = Host.RFail err) \/
   (exists s, Hook.get_session H = Host.RDone s /\ truthy s = false)) ->
  let r := Hook.run_task ls depth H e in
  In Hook.HEmit (Hook.hev r) /\ Forall (fun x => TaskFacts.is_capture x = false) (Hook.hev r) /\
  Hook.htasks r = [] /\ Hook.hthrow r <> None.
Proof.
  intros He Hin Hs r.
  assert (Hall : forall l, Forall (fun x => x = Hook.HEmit) l ->
                   Forall (fun x => TaskFacts.is_capture x = false) l).
  { intros l Hl. eapply Forall_impl; [exact Hl|]. intros x ->. reflexivity. }
  destruct Hs as [[err Hg]|[s [Hg Hf]]]; unfold r, Hook.run_task; rewrite Hg.
  - destruct (TaskFacts.emit_reemit_only ls depth e He Hin) as [Hhd [Hev [Ht Hth]]].
    split; [destruct (Hook.hev _); [discriminate|injection Hhd as ->; left; reflexivity]|].
    split; [apply Hall, Hev|]. split; [exact Ht|exact Hth].
  - rewrite Hf. unfold Hook.hseq at 1. cbn [Hook.hthrow Hook.hexn Hook.hev Hook.htasks].
    destruct (TaskFacts.emit_reemit_only ls depth (Hook.mark e) eq_refl Hin)
      as [Hhd [Hev [Ht Hth]]].
    cbn [Hook.hthrow Hook.hev Hook.htasks app].
    split; [destruct (Hook.hev _); [discriminate|injection Hhd as ->; right; left; reflexivity]|].
    split; [constructor; [reflexivity|apply Hall, Hev]|]. split; [exact Ht|exact Hth].
Qed.

Lemma run_task_no_session_no_capture_witness :
  let H := Hook.mkHenv (Host.RDone JNull) (Some (js "t")) [js "source"; js "exception"]
             (js "ScreenShot_onException-1-2") (fun _ => Capture.Fulfilled Capture.CTrue) in
  let r := Hook.run_task [Hook.LHook] 4 H thrown_error in
  In Hook.HEmit (Hook.hev r) /\ Forall (fun x => TaskFacts.is_capture x = false) (Hook.hev r) /\
  Hook.htasks r = [] /\ Hook.hthrow r <> None.
Proof.
  apply run_task_no_session_no_capture.
  - reflexivity.
  - left. reflexivity.
  - right. exists JNull. split; reflexivity.
Defined.



(* --------------------------------------------------------------------- *)
(** ** snap on a healthy file system *)

Module SnapPath.
Import Path PathFacts.

Lemma norm_go_skip_empty (b : bool) (acc l : list jstr) :
  norm_go b acc ([] :: l) = norm_go b acc l.
Proof. reflexivity. Qed.

(** [path.resolve] leaves a normalized absolute path alone. *)
Lemma resolve_abs_render (cwd : jstr) (T : list jstr) :
  Forall good_seg T -> resolve cwd (js "/" ++ join_sep T) = js "/" ++ join_sep T.
Proof.
  intros HT. unfold resolve.
  rewrite (jstr_eqb_false (js "/" ++ join_sep T) []) by discriminate.
  change (is_absolute (js "/" ++ join_sep T)) with true.
  cbv beta iota zeta. cbn [negb].
  unfold normalizeString. f_equal.
  change ((js "/" ++ join_sep T) ++ js "/") with (47 :: (join_sep T ++ 47 :: [])).
  change (split_slash (47 :: (join_sep T ++ 47 :: [])))
    with ([] :: split_slash (join_sep T ++ 47 :: [])).
  rewrite split_slash_app, norm_go_skip_empty.
  destruct T as [|s r].
  - reflexivity.
  - rewrite split_join_sep.
    + rewrite norm_go_app, (norm_go_good_id false [] (s :: r) HT).
      change (norm_go false (rev (rev [] ++ s :: r)) (split_slash []))
        with (rev (rev (rev [] ++ s :: r))).
      rewrite rev_involutive. reflexivity.
    + discriminate.
    + eapply Forall_impl; [exact HT|]. intros x [Hx _]. exact Hx.
Qed.

(** [path.join] of a normalized absolute directory and a name. *)
Lemma join_general (S : list jstr) (n : jstr) :
  Forall good_seg S -> n <> [] -> ends_with_slash n = false ->
  join (js "/" ++ join_sep S) n = js "/" ++ join_sep (norm_go false (rev S) (split_slash n)) /\
  Forall good_seg (norm_go false (rev S) (split_slash n)).
Proof.
  intros HS Hn Hend.
  set (a := js "/" ++ join_sep S).
  assert (Hsplit : split_slash (a ++ js "/" ++ n) = split_slash a ++ split_slash n)
    by apply split_slash_app.
  assert (HT : norm_go false [] (split_slash (a ++ js "/" ++ n)) =
               norm_go false (rev S) (split_slash n)).
  { rewrite Hsplit, norm_go_app.
    change (norm_go false [] (split_slash a)) with (segments a).
    unfold a. rewrite segments_render by exact HS. reflexivity. }
  assert (Hgood : Forall good_seg (norm_go false (rev S) (split_slash n))).
  { apply norm_go_good; [apply Forall_rev; exact HS|apply split_slash_pieces]. }
  split; [|exact Hgood].
  unfold join.
  rewrite (jstr_eqb_false a []) by (unfold a; discriminate).
  rewrite (jstr_eqb_false n []) by exact Hn.
  rewrite (jstr_eqb_false (a ++ js "/" ++ n) []) by (unfold a; discriminate).
  unfold normalize.
  rewrite (jstr_eqb_false (a ++ js "/" ++ n) []) by (unfold a; discriminate).
  assert (Habs : is_absolute (a ++ js "/" ++ n) = true) by reflexivity.
  assert (Htr : ends_with_slash (a ++ js "/" ++ n) = false).
  { unfold ends_with_slash in *. destruct n as [|c n'] using rev_ind; [congruence|].
    rewrite !app_assoc, last_snoc. rewrite last_snoc in Hend. exact Hend. }
  rewrite Habs, Htr. simpl negb. unfold normalizeString. rewrite HT.
  destruct (jstr_eqb (join_sep (norm_go false (rev S) (split_slash n))) []) eqn:He.
  - apply jstr_eqb_true in He. rewrite He. reflexivity.
  - reflexivity.
Qed.

Lemma norm_go_last_good (acc pre : list jstr) (q : jstr) :
  good_seg q -> norm_go false acc (pre ++ [q]) = norm_go false acc pre ++ [q].
Proof.
  intros Hq. rewrite norm_go_app, norm_go_good_id by (constructor; [exact Hq|constructor]).
  rewrite rev_involutive. reflexivity.
Qed.

Lemma join_sep_snoc (T : list jstr) (q : jstr) :
  T <> [] -> join_sep (T ++ [q]) = join_sep T ++ 47 :: q.
Proof.
  induction T as [|s r IH]; intros Hne; [congruence|].
  destruct r as [|s' r'].
  - reflexivity.
  - change ((s :: s' :: r') ++ [q]) with (s :: ((s' :: r') ++ [q])).
    change (join_sep (s :: (s' :: r') ++ [q])) with (s ++ [47] ++ join_sep ((s' :: r') ++ [q])).
    rewrite IH by discriminate.
    change (join_sep (s :: s' :: r')) with (s ++ [47] ++ join_sep (s' :: r')).
    rewrite <- !app_assoc. reflexivity.
Qed.

Lemma drop_while_all (f : Z -> bool) (l m : jstr) :
  Forall (fun c => f c = true) l -> drop_while f (l ++ m) = drop_while f m.
Proof. induction 1 as [|c r Hc Hr IH]; simpl; [reflexivity|]. rewrite Hc. exact IH. Qed.

Lemma drop_while_stop_app (f : Z -> bool) (l m : jstr) (c : Z) (r : jstr) :
  l = c :: r -> f c = false -> drop_while f (l ++ m) = l ++ m.
Proof. intros -> Hc. simpl. rewrite Hc. reflexivity. Qed.

Lemma rev_no_slash_head (q : jstr) :
  good_seg q -> exists c r, rev q = c :: r /\ is_slash c = false /\
                            Forall (fun c => negb (is_slash c) = true) (rev q).
Proof.
  intros [Hns [Hne _]].
  assert (Hr : Forall (fun c => is_slash c = false) (rev q)) by (apply Forall_rev; exact Hns).
  destruct (rev q) as [|c r] eqn:Hq.
  - apply (f_equal (@rev Z)) in Hq. rewrite rev_involutive in Hq. simpl in Hq. congruence.
  - exists c, r. inversion Hr as [|? ? Hc Hr']; subst.
    split; [reflexivity|]. split; [exact Hc|].
    constructor; [rewrite Hc; reflexivity|].
    eapply Forall_impl; [exact Hr'|]. intros x Hx. rewrite Hx. reflexivity.
Qed.

(** [path.dirname] of a normalized absolute path drops its last segment. *)
Lemma dirname_render (T0 : list jstr) (q : jstr) :
  Forall good_seg T0 -> good_seg q ->
  dirname (js "/" ++ join_sep (T0 ++ [q])) = js "/" ++ join_sep T0.
Proof.
  intros HT Hq.
  destruct (rev_no_slash_head q Hq) as [c [r [Hrq [Hc Hall]]]].
  destruct T0 as [|s T'].
  - change ([] ++ [q]) with [q]. change (join_sep [q]) with q.
    change (js "/" ++ q) with (47 :: q). unfold dirname.
    change (is_slash 47) with true. cbv zeta.
    rewrite <- (app_nil_r (rev q)).
    rewrite (drop_while_stop_app is_slash (rev q) [] c r Hrq Hc).
    rewrite drop_while_all by exact Hall. reflexivity.
  - rewrite join_sep_snoc by discriminate.
    set (J := join_sep (s :: T')).
    assert (HJ : J <> []).
    { unfold J. destruct T' as [|s' T''].
      - inversion HT as [|? ? [_ [Hs _]] _]. exact Hs.
      - change (join_sep (s :: s' :: T'')) with (s ++ [47] ++ join_sep (s' :: T'')).
        destruct s; discriminate. }
    change (js "/" ++ J ++ 47 :: q) with (47 :: (J ++ 47 :: q)). unfold dirname.
    change (is_slash 47) with true. cbv zeta.
    rewrite rev_app_distr. change (rev (47 :: q)) with (rev q ++ [47]).
    rewrite <- app_assoc.
    rewrite (drop_while_stop_app is_slash (rev q) _ c r Hrq Hc).
    rewrite drop_while_all by exact Hall.
    change ([47] ++ rev J) with (47 :: rev J). cbn [drop_while negb].
    change (is_slash 47) with true. cbn [negb].
    destruct (rev J) as [|x y] eqn:HrJ.
    + apply (f_equal (@rev Z)) in HrJ. rewrite rev_involutive in HrJ. simpl in HrJ. congruence.
    + cbn [length andb Nat.eqb].
      assert (Hl : S (length y) = length J).
      { rewrite <- (length_rev J), HrJ. reflexivity. }
      rewrite Hl.
      change (js "/" ++ J) with (47 :: J).
      change (firstn (S (length J)) (47 :: J ++ 47 :: q)) with (47 :: firstn (length J) (J ++ 47 :: q)).
      rewrite firstn_app, Nat.sub_diag, firstn_all. cbn [firstn]. rewrite app_nil_r. reflexivity.
Qed.

Lemma png_piece_good (p : jstr) :
  no_slash (p ++ js ".png") -> good_seg (p ++ js ".png").
Proof.
  intros Hns. split; [exact Hns|].
  repeat split; intros Heq; apply (f_equal (@length Z)) in Heq;
    rewrite length_app in Heq; simpl in Heq; lia.
Qed.

Lemma in_removelast {A : Type} (x : A) (l : list A) : In x (removelast l) -> In x l.
Proof.
  induction l as [|a r IH]; simpl; [auto|].
  destruct r as [|b r']; [intros []|].
  intros [<-|H]; [left; reflexivity|right; apply IH; exact H].
Qed.

Lemma prefixes_self (k : list jstr) : In k (Host.prefixes k).
Proof.
  induction k as [|s r IH]; simpl; [left; reflexivity|].
  right. apply in_map. exact IH.
Qed.

Lemma prefixes_length (k x : list jstr) : In x (Host.prefixes k) -> (length x <= length k)%nat.
Proof.
  revert x. induction k as [|s r IH]; intros x Hx; simpl in Hx.
  - destruct Hx as [<-|[]]. simpl. lia.
  - destruct Hx as [<-|Hx]; [simpl; lia|].
    apply in_map_iff in Hx as [y [<- Hy]]. simpl. apply IH in Hy. lia.
Qed.

End SnapPath.

(** With a session, a screenshot, an absolute working directory and no
    I/O fault, [snap] succeeds as soon as no file stands where a
    directory on the way to the image must be, and no directory stands
    at the image path itself: [mkdirp.sync] creates the image's directory
    before the write. The promise is fulfilled with an image object whose
    [imagePath] is [path.join(path.resolve(d), filename + ".png")], and the
    write adds exactly that file, with the decoded screenshot, leaving
    every other file as it was. *)
Theorem snap_succeeds_on_healthy_fs (E : Host.env) (d f : jstr) (fs : Host.fs_state) (img : jstr) :
  truthy (Host.session E) = true -> Host.screenshot E = Host.RDone img ->
  Path.is_absolute (Host.cwd E) = true ->
  (forall k, Host.mkdir_err E k = None) -> (forall k, Host.write_err E k = None) ->
  let p := snap_image_path E d f in
  (forall q, In q (Host.prefixes (removelast (Host.key E p))) -> Host.files fs !! q = None) ->
  Host.key E p ∉ Host.dirs fs ->
  exists o ev fs',
    Capture.snap E d f fs = (Capture.Fulfilled (Capture.CImage o), ev, fs') /\
    Capture.imagePath o = p /\
    Host.files fs' = <[Host.key E p := Host.Base64Decoded img]> (Host.files fs).
Proof.
  intros Hs Himg Hcwd Hmk Hwr p Hfiles Hdir.
  destruct (PathFacts.resolve_render (Host.cwd E) d Hcwd) as [S [HS HR]].
  destruct (PathFacts.split_slash_last_piece f (js ".png")) as [pre [p0 [Hsf Hsfp]]].
  { repeat constructor. }
  set (nm := p0 ++ js ".png") in Hsfp.
  assert (Hpc : Forall PathFacts.no_slash (pre ++ [nm]))
    by (rewrite <- Hsfp; apply PathFacts.split_slash_pieces).
  apply Forall_app in Hpc as [Hpre Hq1]. inversion Hq1 as [|? ? Hqn _]; subst.
  assert (Hq : PathFacts.good_seg nm) by (apply SnapPath.png_piece_good; exact Hqn).
  destruct (SnapPath.join_general S (f ++ js ".png") HS) as [HJ _].
  { destruct f; discriminate. }
  { unfold Path.ends_with_slash. rewrite PathFacts.last_png. reflexivity. }
  rewrite Hsfp, SnapPath.norm_go_last_good in HJ by exact Hq.
  set (T0 := Path.norm_go false (rev S) pre) in *.
  assert (HT0 : Forall PathFacts.good_seg T0).
  { apply PathFacts.norm_go_good; [apply Forall_rev; exact HS|exact Hpre]. }
  assert (Hgood : Forall PathFacts.good_seg (T0 ++ [nm])).
  { apply Forall_app. split; [exact HT0|constructor; [exact Hq|constructor]]. }
  assert (Hp : p = js "/" ++ Path.join_sep (T0 ++ [nm])).
  { unfold p, snap_image_path. rewrite HR. exact HJ. }
  assert (Hkp : Host.key E p = T0 ++ [nm]).
  { unfold Host.key. rewrite Hp, SnapPath.resolve_abs_render by exact Hgood.
    apply PathFacts.segments_render. exact Hgood. }
  assert (Hdn : Path.dirname p = js "/" ++ Path.join_sep T0).
  { rewrite Hp. apply SnapPath.dirname_render; assumption. }
  assert (Hkd : Host.key E (Path.dirname p) = T0).
  { unfold Host.key. rewrite Hdn, SnapPath.resolve_abs_render by exact HT0.
    apply PathFacts.segments_render. exact HT0. }
  rewrite Hkp, removelast_last in Hfiles. rewrite Hkp in Hdir. rewrite Hkp.
  assert (Hmkd : Host.mkdirp_sync E fs (Path.dirname p) =
                 inr (Host.mkFs (Host.files fs) (Host.dirs fs ∪ list_to_set (Host.prefixes T0)))).
  { unfold Host.mkdirp_sync. cbv zeta. rewrite Hkd.
    destruct (existsb _ _) eqn:Hex.
    - apply existsb_exists in Hex as [k [Hin Hk]]. apply bool_decide_eq_true_1 in Hk.
      rewrite (Hfiles k (SnapPath.in_removelast _ _ Hin)) in Hk. destruct Hk as [x Hx]. discriminate.
    - rewrite bool_decide_false.
      + rewrite Hmk. reflexivity.
      + rewrite (Hfiles T0 (SnapPath.prefixes_self T0)). intros [x Hx]. discriminate. }
  assert (Hw : forall data,
    Host.write_file E (Host.mkFs (Host.files fs) (Host.dirs fs ∪ list_to_set (Host.prefixes T0))) p data =
    inr (Host.mkFs (<[T0 ++ [nm] := data]> (Host.files fs))
                   (Host.dirs fs ∪ list_to_set (Host.prefixes T0)))).
  { intros data. unfold Host.write_file. cbv zeta. rewrite Hkp, Hwr. cbn [Host.dirs Host.files].
    rewrite bool_decide_false.
    2:{ intros Hin. apply elem_of_union in Hin as [Hin|Hin]; [exact (Hdir Hin)|].
        apply elem_of_list_to_set, list_elem_of_In, SnapPath.prefixes_length in Hin.
        rewrite length_app in Hin. simpl in Hin. lia. }
    rewrite removelast_last, bool_decide_true; [reflexivity|].
    apply elem_of_union_r, elem_of_list_to_set, list_elem_of_In, SnapPath.prefixes_self. }
  unfold Capture.snap. rewrite Hs, Himg. cbn [negb]. cbv zeta.
  change (Path.join (Path.resolve (Host.cwd E) d) (f ++ js ".png")) with p.
  rewrite Hmkd.
  destruct (if Jenkins.env_truthy _ then _ else _) as [urls logs].
  rewrite Hw.
  destruct urls; (eexists _, _, _; split; [reflexivity|]; split; reflexivity).
Qed.

Definition notes_fs : Host.fs_state :=
  Host.mkFs {[ [js "home"; js "u"; js "notes.txt"] := Host.Utf8Text (js "hi") ]} {[ [] ]}.

Lemma snap_succeeds_on_healthy_fs_witness :
  exists o ev fs',
    Capture.snap sample_live (js "report") (js "shot") notes_fs =
      (Capture.Fulfilled (Capture.CImage o), ev, fs') /\
    Capture.imagePath o = snap_image_path sample_live (js "report") (js "shot") /\
    Host.files fs' = <[Host.key sample_live (snap_image_path sample_live (js "report") (js "shot")) :=
                        Host.Base64Decoded (js "iVBORw0KGgo=")]> (Host.files notes_fs).
Proof.
  apply (snap_succeeds_on_healthy_fs sample_live (js "report") (js "shot") notes_fs
           (js "iVBORw0KGgo=")); try reflexivity.
  - intros q Hq. vm_compute in Hq.
    repeat (destruct Hq as [<-|Hq]; [vm_compute; reflexivity|]). destruct Hq.
  - intros Hin. unfold notes_fs in Hin. cbn [Host.dirs] in Hin.
    apply elem_of_singleton in Hin. vm_compute in Hin. discriminate.
Defined.

